(** * Hadithology: the chain/body splitter of [backend/alpykhari/parser/base.py]

    A shallow embedding of the per-record text processing done by [main]:
    English clean-up, Arabic normalisation, chain-keyword marking, the
    boundary heuristics and the word-count realignment, followed by the
    properties the specification states about them.

    Python's [str] is a sequence of Unicode code points, so a text is a
    list of code points here. *)

From Stdlib Require Import List NArith ZArith Bool Arith Lia.
Import ListNotations.

Definition char : Set := N.
Definition str : Set := list char.

Definition isnil {A : Type} (l : list A) : bool :=
  match l with [] => true | _ :: _ => false end.

(** ** Python's string methods *)
Module Py.

Definition in_range (lo hi c : char) : bool := ((lo <=? c) && (c <=? hi))%N.

(** [str.isspace] on one character; the same table decides what
    [str.split()], [str.strip()] and the pattern [\s] treat as white space. *)
Definition isspace (c : char) : bool :=
  (in_range 0x09 0x0D c || in_range 0x1C 0x20 c
   || (c =? 0x85) || (c =? 0xA0) || (c =? 0x1680)
   || in_range 0x2000 0x200A c || in_range 0x2028 0x2029 c
   || (c =? 0x202F) || (c =? 0x205F) || (c =? 0x3000))%N.

(** [s.startswith(pre)] *)
Fixpoint startswith (pre s : str) : bool :=
  match pre, s with
  | [], _ => true
  | a :: pre', c :: s' => (a =? c)%N && startswith pre' s'
  | _ :: _, [] => false
  end.

Fixpoint lstrip_by (p : char -> bool) (s : str) : str :=
  match s with
  | [] => []
  | c :: s' => if p c then lstrip_by p s' else s
  end.

Fixpoint rstrip_by (p : char -> bool) (s : str) : str :=
  match s with
  | [] => []
  | c :: s' =>
      match rstrip_by p s' with
      | [] => if p c then [] else [c]
      | r => c :: r
      end
  end.

(** [s.strip(chars)]: every leading and every trailing character of the
    set is dropped. *)
Definition strip_by (p : char -> bool) (s : str) : str :=
  rstrip_by p (lstrip_by p s).

(** [s.strip()] *)
Definition strip (s : str) : str := strip_by isspace s.

Definition cons_word (c : char) (ws : list str) : list str :=
  match ws with
  | w :: r => (c :: w) :: r
  | [] => [[c]]
  end.

Definition at_word_end (s : str) : bool :=
  match s with
  | [] => true
  | d :: _ => isspace d
  end.

(** [s.split()]: the maximal runs of characters that are not white space. *)
Fixpoint split (s : str) : list str :=
  match s with
  | [] => []
  | c :: s' =>
      if isspace c then split s'
      else if at_word_end s' then [c] :: split s'
      else cons_word c (split s')
  end.

(** [s.split(sep)] for a one-character separator: empty pieces are kept. *)
Fixpoint split_on (sep : char) (s : str) : list str :=
  match s with
  | [] => [[]]
  | c :: s' =>
      if (c =? sep)%N then [] :: split_on sep s'
      else cons_word c (split_on sep s')
  end.

(** [sep.join(l)] *)
Fixpoint join (sep : str) (l : list str) : str :=
  match l with
  | [] => []
  | x :: r =>
      match r with
      | [] => x
      | _ :: _ => x ++ sep ++ join sep r
      end
  end.

(** Results of operations that can raise [IndexError]. *)
Inductive result (A : Type) : Type :=
| Ok (a : A)
| IndexError.
Arguments Ok {A} a.
Arguments IndexError {A}.

Definition bind {A B : Type} (r : result A) (k : A -> result B) : result B :=
  match r with
  | Ok a => k a
  | IndexError => IndexError
  end.

(** [l[i]]: a negative index counts from the end, an index out of range
    raises. *)
Definition getitem {A : Type} (l : list A) (i : Z) : result A :=
  let n := Z.of_nat (length l) in
  let k := if (i <? 0)%Z then (i + n)%Z else i in
  if ((k <? 0) || (n <=? k))%Z then IndexError
  else match nth_error l (Z.to_nat k) with
       | Some a => Ok a
       | None => IndexError
       end.

End Py.

Notation "x <- r ;; k" := (Py.bind r (fun x => k))
  (at level 61, r at next level, right associativity).

(** ** The part of the [re] module the program uses *)
Module Re.

(** A compiled pattern, seen from one position of the text: given the
    character before the position ([None] at the start) and the text
    from the position on, the length of the match that starts there and
    the text of its group 1.  None of the program's patterns matches the
    empty string. *)
Definition pattern : Type := option char -> str -> option (nat * str).

(** [re.sub]: left to right, every match that does not overlap an earlier
    one is replaced; [skip] counts the characters of the current match
    still to pass over. *)
Fixpoint sub_from (p : pattern) (repl : str -> str)
         (prev : option char) (skip : nat) (s : str) {struct s} : str :=
  match s with
  | [] => []
  | c :: s' =>
      match skip with
      | S k => sub_from p repl (Some c) k s'
      | O =>
          match p prev s with
          | Some (S n, g) => repl g ++ sub_from p repl (Some c) n s'
          | _ => c :: sub_from p repl (Some c) 0 s'
          end
      end
  end.

Definition sub (p : pattern) (repl : str -> str) (s : str) : str :=
  sub_from p repl None 0 s.

(** [re.search(...)] used as a truth value. *)
Fixpoint search_from (p : pattern) (prev : option char) (s : str) : bool :=
  match p prev s with
  | Some _ => true
  | None =>
      match s with
      | [] => false
      | c :: s' => search_from p (Some c) s'
      end
  end.

Definition search (p : pattern) (s : str) : bool := search_from p None s.

(** A character class [[...]]. *)
Definition char_class (f : char -> bool) : pattern :=
  fun _ s =>
    match s with
    | c :: _ => if f c then Some (1, []) else None
    | [] => None
    end.

Fixpoint run_length (f : char -> bool) (s : str) : nat :=
  match s with
  | c :: s' => if f c then S (run_length f s') else 0
  | [] => 0
  end.

(** [X{m,}] for a class [X] and [1 <= m] (greedy: the whole run);
    [X+] is [X{1,}]. *)
Definition at_least (m : nat) (f : char -> bool) : pattern :=
  fun _ s =>
    let n := run_length f s in
    if m <=? n then Some (n, []) else None.

(** [l1|l2|...] for literal alternatives: the first one, in the order
    written, that the text starts with. *)
Definition literal_alt (alts : list str) : pattern :=
  fun _ s =>
    match find (fun l => Py.startswith l s) alts with
    | Some l => Some (length l, l)
    | None => None
    end.

Definition is_word_opt (is_word : char -> bool) (c : option char) : bool :=
  match c with
  | Some c => is_word c
  | None => false
  end.

(** [\b] between [prev] and [next]: exactly one side is a word character
    (the ends of the text count as non-word). *)
Definition word_boundary (is_word : char -> bool) (prev next : option char) : bool :=
  xorb (is_word_opt is_word prev) (is_word_opt is_word next).

End Re.

(** [str.replace(old, new)] for a non-empty [old]: the occurrences found
    left to right, without overlap. *)
Definition replace (old new : str) (s : str) : str :=
  Re.sub (Re.literal_alt [old]) (fun _ => new) s.

(** ** Constants of [base.py] *)

Definition space : char := 0x20%N.
Definition quote : char := 0x22%N.
Definition tilde : char := 0x7E%N.
Definition waw : char := 0x648%N.    (* و *)

(** [arabic_diacritics]: [ؐ-ًؚ-ٰٟۖ-ۭ] *)
Definition arabic_diacritics (c : char) : bool :=
  (Py.in_range 0x610 0x61A c || Py.in_range 0x64B 0x65F c
   || (c =? 0x670) || Py.in_range 0x6D6 0x6ED c)%N.

(** The class removed from the Arabic text: colon, double and single
    quote, Arabic comma, Arabic full stop, tatweel, hyphen, period, comma. *)
Definition punctuation (c : char) : bool :=
  existsb (N.eqb c) [0x3A; 0x22; 0x27; 0x60C; 0x6D4; 0x640; 0x2D; 0x2E; 0x2C]%N.

Definition honorific_forms : list str :=
  [ [0x631; 0x636; 0x649; 0x20; 0x627; 0x644; 0x644; 0x647; 0x20; 0x639; 0x646; 0x647; 0x627]%N;          (* رضى الله عنها *)
    [0x631; 0x636; 0x649; 0x20; 0x627; 0x644; 0x644; 0x647; 0x20; 0x639; 0x646; 0x647; 0x645; 0x627]%N;   (* رضى الله عنهما *)
    [0x631; 0x636; 0x649; 0x20; 0x627; 0x644; 0x644; 0x647; 0x20; 0x639; 0x646; 0x647; 0x645]%N;          (* رضى الله عنهم *)
    [0x631; 0x636; 0x649; 0x20; 0x627; 0x644; 0x644; 0x647; 0x20; 0x639; 0x646; 0x647]%N ].               (* رضى الله عنه *)

(** The phrase رضى الله عنه, the last of the honorific forms. *)
Definition radiya_allahu_anhu : str :=
  [0x631; 0x636; 0x649; 0x20; 0x627; 0x644; 0x644; 0x647; 0x20; 0x639; 0x646; 0x647]%N.

Definition honorifics : Re.pattern := Re.literal_alt honorific_forms.

(** صلى الله عليه وسلم *)
Definition benediction : str :=
  [0x635; 0x644; 0x649; 0x20; 0x627; 0x644; 0x644; 0x647; 0x20; 0x639; 0x644; 0x64A; 0x647; 0x20; 0x648; 0x633; 0x644; 0x645]%N.

Definition chain_keywords : list str :=
  [ [0x62D; 0x62F; 0x62B; 0x646; 0x627]%N;                   (* حدثنا *)
    [0x62D; 0x62F; 0x62B; 0x646; 0x64A]%N;                   (* حدثني *)
    [0x62D; 0x62F; 0x62B; 0x646; 0x627; 0x647]%N;            (* حدثناه *)
    [0x62D; 0x62F; 0x62B; 0x647]%N;                          (* حدثه *)
    [0x62B; 0x646; 0x627]%N;                                 (* ثنا *)
    [0x623; 0x62E; 0x628; 0x631; 0x646; 0x627]%N;            (* أخبرنا *)
    [0x623; 0x62E; 0x628; 0x631; 0x646; 0x627; 0x647]%N;     (* أخبرناه *)
    [0x623; 0x62E; 0x628; 0x631; 0x646; 0x64A]%N;            (* أخبرني *)
    [0x623; 0x62E; 0x628; 0x631; 0x647]%N;                   (* أخبره *)
    [0x633; 0x645; 0x639; 0x62A]%N;                          (* سمعت *)
    [0x633; 0x645; 0x639; 0x646; 0x627]%N;                   (* سمعنا *)
    [0x633; 0x645; 0x639; 0x646; 0x627; 0x647]%N;            (* سمعناه *)
    [0x633; 0x645; 0x639]%N;                                 (* سمع *)
    [0x639; 0x646]%N;                                        (* عن *)
    [0x639; 0x646; 0x647]%N;                                 (* عنه *)
    [0x639; 0x646; 0x647; 0x627]%N;                          (* عنها *)
    [0x64A; 0x628; 0x644; 0x63A; 0x20; 0x628; 0x647]%N;      (* يبلغ به *)
    [0x623; 0x646; 0x647]%N;                                 (* أنه *)
    [0x623; 0x646]%N;                                        (* أن *)
    [0x623; 0x646; 0x647; 0x627]%N;                          (* أنها *)
    [0x642; 0x627; 0x644]%N;                                 (* قال *)
    [0x642; 0x627; 0x644; 0x62A]%N ].                        (* قالت *)

(** [(نبي|رسول)] *)
Definition prophet_words : Re.pattern :=
  Re.literal_alt [ [0x646; 0x628; 0x64A]%N; [0x631; 0x633; 0x648; 0x644]%N ].

(** [ (بن|ابن) ], a space on each side: the two texts it matches. *)
Definition patronymic : Re.pattern :=
  Re.literal_alt [ [0x20; 0x628; 0x646; 0x20]%N; [0x20; 0x627; 0x628; 0x646; 0x20]%N ].

(** ** The per-record processing of [main] *)

Definition word_count (s : str) : nat := length (Py.split s).

Definition remove_diacritics (text : str) : str :=
  Re.sub (Re.char_class arabic_diacritics) (fun _ => []) text.

(** English text: [strip] with the double quote as its character set when
    the text starts with one, then every run of two or more double quotes
    replaced by one. *)
Definition normalize_en (text_en : str) : str :=
  let text_en :=
    if Py.startswith [quote] text_en then Py.strip_by (N.eqb quote) text_en
    else text_en in
  Re.sub (Re.at_least 2 (N.eqb quote)) (fun _ => [quote]) text_en.

(** Every run of white space replaced by one space, then [strip()]: the
    last step of the Arabic normalisation and of the marking. *)
Definition collapse_ws (s : str) : str :=
  Py.strip (Re.sub (Re.at_least 1 Py.isspace) (fun _ => [space]) s).

(** Arabic text normalisation. *)
Definition normalize (text : str) : str :=
  if isnil text then text
  else
    let text := Re.sub (Re.char_class punctuation) (fun _ => []) text in
    let text := Re.sub honorifics (fun _ => []) text in
    let text := replace benediction [] text in
    collapse_ws text.

(** The first keyword, in the order of [chain_keywords], that the text
    starts with and that ends on a word boundary. *)
Definition keyword_at (is_word : char -> bool) (s : str) : option str :=
  find (fun k => Py.startswith k s
                 && Re.word_boundary is_word (Some (last k space))
                                     (hd_error (skipn (length k) s)))
       chain_keywords.

(** [\bو?(k1|...|kn)\b]: the optional و is tried first; group 1 is the
    keyword alone. *)
Definition chain_pattern (is_word : char -> bool) : Re.pattern :=
  fun prev s =>
    if Re.word_boundary is_word prev (hd_error s) then
      let plain :=
        match keyword_at is_word s with
        | Some k => Some (length k, k)
        | None => None
        end in
      match s with
      | c :: s' =>
          if (c =? waw)%N then
            match keyword_at is_word s' with
            | Some k => Some (S (length k), k)
            | None => plain
            end
          else plain
      | [] => plain
      end
    else None.

(** Step 2 of the marking: every match replaced by a [~], a space and
    group 1, then white space collapsed. *)
Definition mark_keywords (is_word : char -> bool) (text_marked : str) : str :=
  collapse_ws
    (Re.sub (chain_pattern is_word) (fun g => [tilde; space] ++ g) text_marked).

(** [text_marked]: diacritics stripped, then keywords marked. *)
Definition text_marked_of (is_word : char -> bool) (text : str) : str :=
  mark_keywords is_word (remove_diacritics text).

(** [chain_delims]: the pieces between markers, stripped, the empty ones
    dropped. *)
Definition chain_delims_of (text_marked : str) : list str :=
  map Py.strip
      (filter (fun s => negb (isnil (Py.strip s))) (Py.split_on tilde text_marked)).

Definition heuristic1 (delim : str) : bool := Re.search prophet_words delim.

Definition heuristic2 (count : nat) (delim : str) : bool :=
  (7 <? count) && negb (Re.search patronymic delim).

(** The [for j, delim in enumerate(chain_delims)] loop; [j] is the index of
    the head of [rest].  It ends with [body_marked] still empty when no
    segment matches. *)
Fixpoint scan (chain_delims : list str) (chain_toks_word_count : list nat)
         (j : nat) (rest : list str) : Py.result str :=
  match rest with
  | [] => Py.Ok []
  | delim :: rest' =>
      if heuristic1 delim then Py.Ok (Py.join [tilde] (skipn j chain_delims))
      else
        count <- Py.getitem chain_toks_word_count (Z.of_nat j) ;;
        if heuristic2 count delim
        then Py.Ok (Py.join [tilde] (skipn j chain_delims))
        else scan chain_delims chain_toks_word_count (S j) rest'
  end.

(** [body_marked], from the marked text. *)
Definition body_marked_of (text_marked : str) : Py.result str :=
  let chain_delims := chain_delims_of text_marked in
  body_marked <-
    (if isnil chain_delims then Py.Ok []
     else
       let chain_toks_word_count := map word_count chain_delims in
       body_marked <- scan chain_delims chain_toks_word_count 0 chain_delims ;;
       if isnil body_marked then Py.getitem chain_delims (-1)%Z
       else Py.Ok body_marked) ;;
  Py.Ok (Py.strip (replace [tilde] [space] body_marked)).

(** The step that applies the split to the original text: the pair
    [(chain, body)]. *)
Definition apply_split (text body_marked : str) : str * str :=
  let text_toks := Py.split text in
  let body_marked_toks := Py.split body_marked in
  if isnil text_toks || isnil body_marked_toks
     || (length text_toks <=? length body_marked_toks)
  then ([], text)
  else
    let diff := length text_toks - length body_marked_toks in
    (Py.strip (Py.join [space] (firstn diff text_toks)),
     Py.strip (Py.join [space] (skipn diff text_toks))).

(** The core: from the raw Arabic text to [(chain, body)]. *)
Definition segment (is_word : char -> bool) (text : str) : Py.result (str * str) :=
  let text := normalize text in
  body_marked <- body_marked_of (text_marked_of is_word text) ;;
  Py.Ok (apply_split text body_marked).

(** The fields of a row the loop reads, and the parameters it binds to the
    [UPDATE] statement. *)
Record row : Type := {
  bookId : N;
  num : N;
  text_en : option str;
  text : option str
}.

Record params : Type := {
  p_body_en : str;
  p_text_en : str;
  p_text : str;
  p_chain : str;
  p_body : str;
  p_bookId : N;
  p_num : N
}.

(** [x or <empty string>] *)
Definition or_empty (x : option str) : str :=
  match x with
  | Some s => s
  | None => []
  end.

Definition process_row (is_word : char -> bool) (r : row) : Py.result params :=
  let en := normalize_en (or_empty (text_en r)) in
  let ar := normalize (or_empty (text r)) in
  body_marked <- body_marked_of (text_marked_of is_word ar) ;;
  let cb := apply_split ar body_marked in
  Py.Ok {| p_body_en := en; p_text_en := en; p_text := ar;
           p_chain := fst cb; p_body := snd cb;
           p_bookId := bookId r; p_num := num r |}.

(** [\w] on the Basic Latin and Arabic blocks, the blocks of the texts used
    as examples below: letters, digits and the underscore. *)
Definition latin_arabic_word (c : char) : bool :=
  (Py.in_range 0x30 0x39 c || Py.in_range 0x41 0x5A c || (c =? 0x5F)
   || Py.in_range 0x61 0x7A c
   || Py.in_range 0x620 0x64A c || Py.in_range 0x660 0x669 c
   || Py.in_range 0x66E 0x66F c || Py.in_range 0x671 0x6D3 c
   || (c =? 0x6D5) || Py.in_range 0x6E5 0x6E6 c
   || Py.in_range 0x6EE 0x6FC c || (c =? 0x6FF))%N.

(** ** Notions used in the statements *)

(** A word of a text: not empty, no white space in it. *)
Definition token (w : str) : Prop :=
  w <> [] /\ Forall (fun c => Py.isspace c = false) w.

(** Nothing for [strip()] to remove, and not empty. *)
Definition trimmed (x : str) : Prop :=
  x <> [] /\ Py.lstrip_by Py.isspace x = x /\ Py.rstrip_by Py.isspace x = x.

(** The character before the position reached after passing over [l]. *)
Fixpoint prev_after (prev : option char) (l : str) : option char :=
  match l with
  | [] => prev
  | c :: l' => prev_after (Some c) l'
  end.

(** The scan of [re.sub] for the pattern of white-space runs. *)
Definition ws_sub (prev : option char) (s : str) : str :=
  Re.sub_from (Re.at_least 1 Py.isspace) (fun _ => [space]) prev 0 s.

(** A segment on which the scan stops: heuristic 1 or heuristic 2 holds. *)
Definition selects (delim : str) : bool :=
  heuristic1 delim || heuristic2 (word_count delim) delim.

(** Index of the first segment on which the scan stops. *)
Fixpoint first_match (segs : list str) : option nat :=
  match segs with
  | [] => None
  | d :: r => if selects d then Some 0 else option_map S (first_match r)
  end.

(** The text contains one of the literals. *)
Definition contains_any (ls : list str) (s : str) : Prop :=
  exists pre l post, In l ls /\ s = pre ++ l ++ post.

(** The number of leading words [apply_split] gives to the chain. *)
Definition diff_of (text body_marked : str) : nat :=
  if isnil (Py.split text) || isnil (Py.split body_marked)
     || (length (Py.split text) <=? length (Py.split body_marked))
  then 0
  else length (Py.split text) - length (Py.split body_marked).


(** ** Words and example texts *)

Definition nabi : str := [0x646; 0x628; 0x64A]%N.            (* نبي *)
Definition rasul : str := [0x631; 0x633; 0x648; 0x644]%N.    (* رسول *)
Definition bin : str := [0x628; 0x646]%N.                    (* بن *)
Definition ibn : str := [0x627; 0x628; 0x646]%N.             (* ابن *)

(** ~ حدثنا زيد ~ عن النبي ~ قال كذا *)
Definition marked_prophet : str :=
  [0x7E; 0x20; 0x62D; 0x62F; 0x62B; 0x646; 0x627; 0x20; 0x632; 0x64A; 0x62F; 0x20;
   0x7E; 0x20; 0x639; 0x646; 0x20; 0x627; 0x644; 0x646; 0x628; 0x64A; 0x20;
   0x7E; 0x20; 0x642; 0x627; 0x644; 0x20; 0x643; 0x630; 0x627]%N.

(** عن النبي *)
Definition seg_prophet : str :=
  [0x639; 0x646; 0x20; 0x627; 0x644; 0x646; 0x628; 0x64A]%N.

(** ~ حدثنا زيد بن عمر بن علي بن حسن بن سعد ~ قال كذا *)
Definition marked_patronymic : str :=
  [0x7E; 0x20; 0x62D; 0x62F; 0x62B; 0x646; 0x627; 0x20; 0x632; 0x64A; 0x62F; 0x20;
   0x628; 0x646; 0x20; 0x639; 0x645; 0x631; 0x20; 0x628; 0x646; 0x20; 0x639; 0x644;
   0x64A; 0x20; 0x628; 0x646; 0x20; 0x62D; 0x633; 0x646; 0x20; 0x628; 0x646; 0x20;
   0x633; 0x639; 0x62F; 0x20; 0x7E; 0x20; 0x642; 0x627; 0x644; 0x20; 0x643; 0x630;
   0x627]%N.

(** حدثنا زيد بن عمر بن علي بن حسن بن سعد *)
Definition seg_patronymic : str :=
  [0x62D; 0x62F; 0x62B; 0x646; 0x627; 0x20; 0x632; 0x64A; 0x62F; 0x20; 0x628; 0x646;
   0x20; 0x639; 0x645; 0x631; 0x20; 0x628; 0x646; 0x20; 0x639; 0x644; 0x64A; 0x20;
   0x628; 0x646; 0x20; 0x62D; 0x633; 0x646; 0x20; 0x628; 0x646; 0x20; 0x633; 0x639;
   0x62F]%N.

(** ابن عمر كان يصلي في المسجد كل يوم قال كذا *)
Definition text_leading_ibn : str :=
  [0x627; 0x628; 0x646; 0x20; 0x639; 0x645; 0x631; 0x20; 0x643; 0x627; 0x646; 0x20;
   0x64A; 0x635; 0x644; 0x64A; 0x20; 0x641; 0x64A; 0x20; 0x627; 0x644; 0x645; 0x633;
   0x62C; 0x62F; 0x20; 0x643; 0x644; 0x20; 0x64A; 0x648; 0x645; 0x20; 0x642; 0x627;
   0x644; 0x20; 0x643; 0x630; 0x627]%N.

(** ابن عمر كان يصلي في المسجد كل يوم *)
Definition seg_leading_ibn : str :=
  [0x627; 0x628; 0x646; 0x20; 0x639; 0x645; 0x631; 0x20; 0x643; 0x627; 0x646; 0x20;
   0x64A; 0x635; 0x644; 0x64A; 0x20; 0x641; 0x64A; 0x20; 0x627; 0x644; 0x645; 0x633;
   0x62C; 0x62F; 0x20; 0x643; 0x644; 0x20; 0x64A; 0x648; 0x645]%N.

(** قال كذا *)
Definition seg_qala : str := [0x642; 0x627; 0x644; 0x20; 0x643; 0x630; 0x627]%N.

(** The sentence on patronymic suppression read word by word: a segment of
    more than seven words that fails heuristic 1 and has بن or ابن among
    its words is never selected by heuristic 2. *)
Definition patronymic_word_suppression : Prop :=
  forall delim,
    7 < word_count delim -> heuristic1 delim = false ->
    In bin (Py.split delim) \/ In ibn (Py.split delim) ->
    heuristic2 (word_count delim) delim = false.

(** [old in s] for a literal [old]. *)
Definition contains (old s : str) : bool :=
  Re.search (Re.literal_alt [old]) s.

(** The text goes on with the words of [k], each white space of [k]
    standing for a run of white space of any length. *)
Fixpoint loosely_starts (k s : str) {struct k} : bool :=
  match k with
  | [] => true
  | x :: k' =>
      match s with
      | [] => false
      | c :: s' =>
          if Py.isspace x
          then Py.isspace c && loosely_starts k' (Py.lstrip_by Py.isspace s')
          else (x =? c)%N && loosely_starts k' s'
      end
  end.


(** Wherever the words of [k] stand in a row in the text, they are written
    as in [k], with single spaces. *)
Fixpoint single_spaced (k s : str) : bool :=
  (negb (loosely_starts k s) || Py.startswith k s)
  && match s with
     | [] => true
     | _ :: s' => single_spaced k s'
     end.

(** A match of the pattern starts at the head of the text. *)
Definition matches_at (p : Re.pattern) (s : str) : bool :=
  match p None s with
  | Some (S _, _) => true
  | _ => false
  end.

(** What follows the match that starts at the head of the text. *)
Definition after_match (p : Re.pattern) (s : str) : str :=
  match p None s with
  | Some (n, _) => skipn n s
  | None => s
  end.

(** The text could go on with the character [x] of a phrase once matches
    are removed: it starts with a match, or with [x] (with white space,
    when [x] is white space).  When [spaced], white space has just been
    read, and the white space at the head of the text is passed over. *)
Definition goes_on (p : Re.pattern) (spaced : bool) (x : char) (s : str) : bool :=
  let s := if spaced then Py.lstrip_by Py.isspace s else s in
  matches_at p s
  || match s with
     | [] => false
     | d :: _ => if Py.isspace x then Py.isspace d else (x =? d)%N
     end.

(** Reading the words of [k] from the head of the text, as far as the text
    goes on with them: at no position reached after the first character
    does a match of the pattern start that is followed by what could go on
    with the words.  [inside] tells that a character has been read,
    [spaced] that the last one read was white space. *)
Fixpoint no_match_between_from (p : Re.pattern) (k : str) (inside spaced : bool)
         (s : str) {struct k} : bool :=
  match k with
  | [] => true
  | x :: k' =>
      (negb inside || negb (matches_at p s)
       || negb (goes_on p spaced x (after_match p s)))
      && match s with
         | [] => true
         | c :: s' =>
             if Py.isspace x
             then negb (Py.isspace c)
                  || no_match_between_from p k' true true (Py.lstrip_by Py.isspace s')
             else negb (x =? c)%N || no_match_between_from p k' true false s'
         end
  end.

(** Nowhere in the text does a match of the pattern stand between a
    beginning of the words of [k] and what could go on with them. *)
Fixpoint no_match_between (p : Re.pattern) (k s : str) : bool :=
  no_match_between_from p k false false s
  && match s with
     | [] => true
     | _ :: s' => no_match_between p k s'
     end.

(** The text after the punctuation pass, and after the honorific pass. *)
Definition without_punctuation (text : str) : str :=
  Re.sub (Re.char_class punctuation) (fun _ => []) text.

Definition without_honorifics (text : str) : str :=
  Re.sub honorifics (fun _ => []) (without_punctuation text).

(** رضى الله رضى الله عنه عنه *)
Definition text_nested_honorific : str :=
  [0x631; 0x636; 0x649; 0x20; 0x627; 0x644; 0x644; 0x647; 0x20;
   0x631; 0x636; 0x649; 0x20; 0x627; 0x644; 0x644; 0x647; 0x20; 0x639; 0x646; 0x647;
   0x20; 0x639; 0x646; 0x647]%N.

(** قال أنس رضى الله عنه سمعت رسول الله *)
Definition text_with_honorific : str :=
  [0x642; 0x627; 0x644; 0x20; 0x623; 0x646; 0x633; 0x20; 0x631; 0x636; 0x649; 0x20;
   0x627; 0x644; 0x644; 0x647; 0x20; 0x639; 0x646; 0x647; 0x20; 0x633; 0x645; 0x639;
   0x62A; 0x20; 0x631; 0x633; 0x648; 0x644; 0x20; 0x627; 0x644; 0x644; 0x647]%N.

(** قال أنس سمعت رسول الله *)
Definition text_without_honorific : str :=
  [0x642; 0x627; 0x644; 0x20; 0x623; 0x646; 0x633; 0x20; 0x633; 0x645; 0x639; 0x62A;
   0x20; 0x631; 0x633; 0x648; 0x644; 0x20; 0x627; 0x644; 0x644; 0x647]%N.



(** ررضى الله عنهضى الله عنه: an honorific inside the letters of رضى *)
Definition text_honorific_in_word : str :=
  [0x631; 0x631; 0x636; 0x649; 0x20; 0x627; 0x644; 0x644; 0x647; 0x20; 0x639; 0x646;
   0x647; 0x636; 0x649; 0x20; 0x627; 0x644; 0x644; 0x647; 0x20; 0x639; 0x646; 0x647]%N.

(** رضى الله عنه رصلى الله عليه وسلمضى الله عنه: an honorific, then the
    benediction inside the letters of رضى *)
Definition text_benediction_in_word : str :=
  [0x631; 0x636; 0x649; 0x20; 0x627; 0x644; 0x644; 0x647; 0x20; 0x639; 0x646; 0x647;
   0x20; 0x631; 0x635; 0x644; 0x649; 0x20; 0x627; 0x644; 0x644; 0x647; 0x20; 0x639;
   0x644; 0x64A; 0x647; 0x20; 0x648; 0x633; 0x644; 0x645; 0x636; 0x649; 0x20; 0x627;
   0x644; 0x644; 0x647; 0x20; 0x639; 0x646; 0x647]%N.

(** رضى الله عنه رضى  الله عنه: the second time with two spaces *)
Definition text_honorific_two_spaces : str :=
  [0x631; 0x636; 0x649; 0x20; 0x627; 0x644; 0x644; 0x647; 0x20; 0x639; 0x646; 0x647;
   0x20; 0x631; 0x636; 0x649; 0x20; 0x20; 0x627; 0x644; 0x644; 0x647; 0x20; 0x639;
   0x646; 0x647]%N.

(** ** The English clean-up, for the statements *)

Definition next_is_quote (s : str) : bool :=
  match s with
  | d :: _ => (quote =? d)%N
  | [] => false
  end.

(** Every quote that is followed by a quote is dropped: a run of quotes
    becomes one quote. *)
Fixpoint squeeze_quotes (s : str) : str :=
  match s with
  | [] => []
  | c :: s' =>
      if (quote =? c)%N && next_is_quote s' then squeeze_quotes s'
      else c :: squeeze_quotes s'
  end.

(** Two quotes in a row somewhere in the text. *)
Fixpoint adjacent_quotes (s : str) : bool :=
  match s with
  | [] => false
  | c :: s' => ((quote =? c)%N && next_is_quote s') || adjacent_quotes s'
  end.

(** The last character removed when it is a quote. *)
Definition drop_trailing_quote (s : str) : str :=
  match rev s with
  | c :: r => if (quote =? c)%N then rev r else s
  | [] => []
  end.

(** The English clean-up as the specification words it: when the text
    starts with a quote, a single pair is stripped (one quote at the front,
    one at the back), then runs of quotes are collapsed. *)
Definition normalize_en_single_pair (text_en : str) : str :=
  let text_en :=
    if Py.startswith [quote] text_en then drop_trailing_quote (tl text_en)
    else text_en in
  Re.sub (Re.at_least 2 (N.eqb quote)) (fun _ => [quote]) text_en.

(** Two quotes, the letter a, two quotes. *)
Definition text_en_doubled : str := [0x22; 0x22; 0x61; 0x22; 0x22]%N.

(** A row with an English text in quotes and an Arabic text. *)
Definition row_example : row :=
  {| bookId := 1; num := 7;
     text_en := Some [0x22; 0x61; 0x22; 0x22; 0x62; 0x22]%N;
     text := Some [0x642; 0x627; 0x644; 0x20; 0x643; 0x630; 0x627]%N |}.

(** ** The marking, for the statements *)

(** Every marker deleted, then white space collapsed. *)
Definition unmark (text_marked : str) : str :=
  collapse_ws (filter (fun c => negb (c =? tilde)%N) text_marked).

(** The text with every match of the chain pattern replaced by its group 1:
    each matched keyword stays, a و attached in front of it goes. *)
Definition keywords_only (is_word : char -> bool) (s : str) : str :=
  Re.sub (chain_pattern is_word) (fun g => g) s.

(** The letters of the chain pattern: و and the letters of the keywords. *)
Definition keyword_letters : list char :=
  waw :: filter (fun c => negb (Py.isspace c)) (concat chain_keywords).

(** The character before a position is there and is not white space. *)
Definition after_nonspace (prev : option char) : bool :=
  match prev with
  | Some c => negb (Py.isspace c)
  | None => false
  end.

(** The substitution of the chain pattern read left to right, as a
    relation between the text and the result: a character at which no
    match starts is kept; where a match starts, its span, a keyword with
    or without و in front of it, is replaced by [out] of the keyword, and
    the reading goes on behind the span. *)
Inductive scanned_as (is_word : char -> bool) (out : str -> str) :
  option char -> str -> str -> Prop :=
| scanned_end prev : scanned_as is_word out prev [] []
| scanned_char prev c s x :
    chain_pattern is_word prev (c :: s) = None ->
    scanned_as is_word out (Some c) s x ->
    scanned_as is_word out prev (c :: s) (c :: x)
| scanned_span prev span k rest x :
    In k chain_keywords ->
    span = k \/ span = waw :: k ->
    chain_pattern is_word prev (span ++ rest) = Some (length span, k) ->
    scanned_as is_word out (Some (last k space)) rest x ->
    scanned_as is_word out prev (span ++ rest) (out k ++ x).

(** Every match that the scan of [re.sub] finds starts the text or follows
    white space. *)
Fixpoint matches_after_space (p : Re.pattern) (prev : option char) (skip : nat)
         (s : str) {struct s} : bool :=
  match s with
  | [] => true
  | c :: s' =>
      match skip with
      | S k => matches_after_space p (Some c) k s'
      | O =>
          match p prev s with
          | Some (S n, _) =>
              negb (after_nonspace prev) && matches_after_space p (Some c) n s'
          | _ => matches_after_space p (Some c) 0 s'
          end
      end
  end.

(** The text with the character before it put back in front of it when
    that character is not white space: its first word is then whole. *)
Definition with_prev (prev : option char) (x : str) : str :=
  match prev with
  | Some d => if Py.isspace d then x else d :: x
  | None => x
  end.

(** حدثنا زيد؛ وقال كذا *)
Definition text_semicolon : str :=
  [0x62D; 0x62F; 0x62B; 0x646; 0x627; 0x20; 0x632; 0x64A; 0x62F; 0x61B; 0x20; 0x648;
   0x642; 0x627; 0x644; 0x20; 0x643; 0x630; 0x627]%N.

(** حدثنا زيد؛ قال كذا *)
Definition text_semicolon_keywords_only : str :=
  [0x62D; 0x62F; 0x62B; 0x646; 0x627; 0x20; 0x632; 0x64A; 0x62F; 0x61B; 0x20; 0x642;
   0x627; 0x644; 0x20; 0x643; 0x630; 0x627]%N.

(** ~ حدثنا زيد؛ ~ قال كذا *)
Definition text_semicolon_marked : str :=
  [tilde; space; 0x62D; 0x62F; 0x62B; 0x646; 0x627; 0x20; 0x632; 0x64A; 0x62F; 0x61B;
   0x20; tilde; space; 0x642; 0x627; 0x644; 0x20; 0x643; 0x630; 0x627]%N.

(** وقال زيد *)
Definition text_waw_qala : str :=
  [0x648; 0x642; 0x627; 0x644; 0x20; 0x632; 0x64A; 0x62F]%N.

(** قال زيد *)
Definition text_qala : str := [0x642; 0x627; 0x644; 0x20; 0x632; 0x64A; 0x62F]%N.

(** حدثنا زيد وقال كذا *)
Definition text_two_keywords : str :=
  [0x62D; 0x62F; 0x62B; 0x646; 0x627; 0x20; 0x632; 0x64A; 0x62F; 0x20; 0x648; 0x642;
   0x627; 0x644; 0x20; 0x643; 0x630; 0x627]%N.

(** حدثنا زيد قال كذا *)
Definition text_two_keywords_only : str :=
  [0x62D; 0x62F; 0x62B; 0x646; 0x627; 0x20; 0x632; 0x64A; 0x62F; 0x20; 0x642; 0x627;
   0x644; 0x20; 0x643; 0x630; 0x627]%N.

(** حدثنا زيد عن النبي قال كذا *)
Definition text_prophet : str :=
  [0x62D; 0x62F; 0x62B; 0x646; 0x627; 0x20; 0x632; 0x64A; 0x62F; 0x20; 0x639; 0x646;
   0x20; 0x627; 0x644; 0x646; 0x628; 0x64A; 0x20; 0x642; 0x627; 0x644; 0x20; 0x643;
   0x630; 0x627]%N.

(** حدثنا زيد *)
Definition text_haddathana_zayd : str :=
  [0x62D; 0x62F; 0x62B; 0x646; 0x627; 0x20; 0x632; 0x64A; 0x62F]%N.

(** عن النبي قال كذا *)
Definition text_an_alnabi : str :=
  [0x639; 0x646; 0x20; 0x627; 0x644; 0x646; 0x628; 0x64A; 0x20; 0x642; 0x627; 0x644;
   0x20; 0x643; 0x630; 0x627]%N.

(** قال between parentheses *)
Definition text_qala_parens : str := [0x28; 0x642; 0x627; 0x644; 0x29]%N.

(** ** Notions for the further properties *)

(** The number of words of a list of segments. *)
Definition words_in (segs : list str) : nat := list_sum (map word_count segs).

(** The index of the segment at which the body candidate starts: the first
    segment on which a heuristic holds, or else the last one. *)
Definition boundary_index (segs : list str) : nat :=
  match first_match segs with
  | Some j => j
  | None => length segs - 1
  end.

(** The marker turned into a space. *)
Definition untilde_char (c : char) : char := if (tilde =? c)%N then space else c.

(** A tab, a period, two spaces, a comma, a line feed. *)
Definition text_blank : str := [0x09; 0x2E; 0x20; 0x20; 0x2C; 0x0A]%N.

(** زيد كذا *)
Definition text_zayd_kadha : str := [0x632; 0x64A; 0x62F; 0x20; 0x643; 0x630; 0x627]%N.

(** قال زيد كذا *)
Definition text_qala_zayd_kadha : str :=
  [0x642; 0x627; 0x644; 0x20; 0x632; 0x64A; 0x62F; 0x20; 0x643; 0x630; 0x627]%N.

(** زَيد كَذا, with diacritics inside the words *)
Definition text_vowelled : str :=
  [0x632; 0x64E; 0x64A; 0x62F; 0x20; 0x643; 0x64E; 0x630; 0x627]%N.

(** حدثناه زيد *)
Definition text_haddathanahu : str :=
  [0x62D; 0x62F; 0x62B; 0x646; 0x627; 0x647; 0x20; 0x632; 0x64A; 0x62F]%N.

(** حدثناه *)
Definition haddathanahu : str := [0x62D; 0x62F; 0x62B; 0x646; 0x627; 0x647]%N.
(** * Facts about the string methods *)

Lemma cons_word_app c l1 l2 :
  l1 <> [] -> Py.cons_word c (l1 ++ l2) = Py.cons_word c l1 ++ l2.
Proof. destruct l1; [congruence | reflexivity]. Qed.

Lemma split_cons c s :
  Py.split (c :: s) =
  if Py.isspace c then Py.split s
  else if Py.at_word_end s then [c] :: Py.split s
       else Py.cons_word c (Py.split s).
Proof. reflexivity. Qed.

Lemma split_nonempty s :
  Py.at_word_end s = false -> Py.split s <> [].
Proof.
  destruct s as [|c s]; simpl; [discriminate|].
  intros ->. destruct (Py.at_word_end s); [discriminate|].
  destruct (Py.split s); discriminate.
Qed.

Lemma at_word_end_app a c b :
  Py.isspace c = true -> Py.at_word_end (a ++ c :: b) = Py.at_word_end a.
Proof. destruct a; simpl; auto. Qed.

Lemma split_app_space a c b :
  Py.isspace c = true -> Py.split (a ++ c :: b) = Py.split a ++ Py.split b.
Proof.
  intros Hc. induction a as [|x a IH]; simpl.
  - now rewrite Hc.
  - rewrite at_word_end_app by assumption. rewrite IH.
    destruct (Py.isspace x); [reflexivity|].
    destruct (Py.at_word_end a) eqn:E; [reflexivity|].
    apply cons_word_app. now apply split_nonempty.
Qed.

Lemma split_token w : token w -> Py.split w = [w].
Proof.
  intros [Hne Hall]. induction w as [|c w IH]; [congruence|].
  inversion Hall as [|? ? Hc Hw]; subst. simpl. rewrite Hc.
  destruct w as [|d w]; [reflexivity|].
  inversion Hw as [|? ? Hd _]; subst.
  cbn [Py.at_word_end]. rewrite Hd.
  rewrite IH by (auto; discriminate). reflexivity.
Qed.

Lemma split_tokens s : Forall token (Py.split s).
Proof.
  induction s as [|c s IH]; simpl; [constructor|].
  destruct (Py.isspace c) eqn:Hc; [assumption|].
  destruct (Py.at_word_end s).
  - constructor; [|assumption]. split; [discriminate|]. now repeat constructor.
  - destruct (Py.split s) as [|w r]; simpl.
    + constructor; [|constructor]. split; [discriminate|]. now repeat constructor.
    + inversion IH as [|? ? [Hw1 Hw2] Hr]; subst.
      constructor; [|assumption]. split; [discriminate|]. now constructor.
Qed.

Lemma join_cons sep x r :
  r <> [] -> Py.join sep (x :: r) = x ++ sep ++ Py.join sep r.
Proof. destruct r; [congruence | reflexivity]. Qed.

Lemma join_app sep l1 l2 :
  l1 <> [] -> l2 <> [] ->
  Py.join sep (l1 ++ l2) = Py.join sep l1 ++ sep ++ Py.join sep l2.
Proof.
  intros H1 H2. induction l1 as [|x l1 IH]; [congruence|].
  destruct l1 as [|y l1].
  - simpl. destruct l2; [congruence | reflexivity].
  - change ((x :: y :: l1) ++ l2) with (x :: (y :: l1) ++ l2).
    rewrite join_cons by discriminate.
    rewrite IH by discriminate.
    rewrite (join_cons sep x (y :: l1)) by discriminate.
    now rewrite <- !app_assoc.
Qed.

Lemma split_join ws :
  Forall token ws -> Py.split (Py.join [space] ws) = ws.
Proof.
  induction 1 as [|w ws Hw Hws IH]; [reflexivity|].
  destruct ws as [|v ws].
  - now apply split_token.
  - rewrite join_cons by discriminate.
    change (w ++ [space] ++ Py.join [space] (v :: ws))
      with (w ++ space :: Py.join [space] (v :: ws)).
    rewrite split_app_space by reflexivity.
    now rewrite IH, split_token.
Qed.

Section StripFacts.
Variable p : char -> bool.

Lemma rstrip_by_cons c s :
  Py.rstrip_by p (c :: s) =
  if isnil (Py.rstrip_by p s) then (if p c then [] else [c])
  else c :: Py.rstrip_by p s.
Proof. simpl. now destruct (Py.rstrip_by p s). Qed.

Lemma rstrip_by_app a b :
  Py.rstrip_by p b <> [] -> Py.rstrip_by p (a ++ b) = a ++ Py.rstrip_by p b.
Proof.
  intros Hb. induction a as [|c a IH]; [reflexivity|].
  simpl. rewrite IH. destruct a; simpl; [|reflexivity].
  destruct (Py.rstrip_by p b); [congruence | reflexivity].
Qed.

Lemma rstrip_by_idem s :
  Py.rstrip_by p (Py.rstrip_by p s) = Py.rstrip_by p s.
Proof.
  induction s as [|c s IH]; [reflexivity|].
  rewrite rstrip_by_cons.
  destruct (Py.rstrip_by p s) as [|d r] eqn:E; simpl.
  - destruct (p c) eqn:Hc; simpl; [reflexivity | now rewrite Hc].
  - simpl in IH. rewrite IH. reflexivity.
Qed.

Lemma rstrip_by_hd s :
  Py.rstrip_by p s <> [] -> hd_error (Py.rstrip_by p s) = hd_error s.
Proof.
  destruct s as [|c s]; [reflexivity|].
  rewrite rstrip_by_cons.
  destruct (Py.rstrip_by p s); simpl; [|reflexivity].
  destruct (p c); [congruence | reflexivity].
Qed.

Lemma lstrip_by_hd s c :
  hd_error (Py.lstrip_by p s) = Some c -> p c = false.
Proof.
  induction s as [|d s IH]; simpl; [discriminate|].
  destruct (p d) eqn:Hd; [assumption|].
  simpl. intros [= <-]. assumption.
Qed.

Lemma lstrip_by_fix s :
  (forall c, hd_error s = Some c -> p c = false) -> Py.lstrip_by p s = s.
Proof.
  destruct s as [|c s]; [reflexivity|]. simpl.
  intros H. now rewrite (H c eq_refl).
Qed.

(** [strip] leaves nothing for a second [strip] to remove. *)
Lemma strip_by_fix s :
  Py.lstrip_by p (Py.strip_by p s) = Py.strip_by p s
  /\ Py.rstrip_by p (Py.strip_by p s) = Py.strip_by p s.
Proof.
  unfold Py.strip_by. split; [|apply rstrip_by_idem].
  apply lstrip_by_fix. intros c Hc.
  destruct (Py.rstrip_by p (Py.lstrip_by p s)) eqn:E; [discriminate|].
  rewrite <- E in Hc. rewrite rstrip_by_hd in Hc by (rewrite E; discriminate).
  now apply lstrip_by_hd in Hc.
Qed.

Lemma Forall_lstrip_by (P : char -> Prop) s :
  Forall P s -> Forall P (Py.lstrip_by p s).
Proof.
  induction 1 as [|c s Hc Hs IH]; simpl; [constructor|].
  destruct (p c); [assumption | now constructor].
Qed.

Lemma Forall_rstrip_by (P : char -> Prop) s :
  Forall P s -> Forall P (Py.rstrip_by p s).
Proof.
  induction 1 as [|c s Hc Hs IH]; [constructor|].
  rewrite rstrip_by_cons.
  destruct (isnil (Py.rstrip_by p s)).
  - destruct (p c); [constructor | now repeat constructor].
  - now constructor.
Qed.

Lemma Forall_strip_by (P : char -> Prop) s :
  Forall P s -> Forall P (Py.strip_by p s).
Proof. intros H. now apply Forall_rstrip_by, Forall_lstrip_by. Qed.

End StripFacts.

Lemma split_lstrip s : Py.split (Py.lstrip_by Py.isspace s) = Py.split s.
Proof.
  induction s as [|c s IH]; [reflexivity|]. simpl.
  destruct (Py.isspace c) eqn:Hc; [assumption|].
  simpl. now rewrite Hc.
Qed.

Lemma rstrip_nil_split s : Py.rstrip_by Py.isspace s = [] -> Py.split s = [].
Proof.
  induction s as [|c s IH]; [reflexivity|].
  rewrite rstrip_by_cons.
  destruct (Py.rstrip_by Py.isspace s) eqn:E; simpl; [|discriminate].
  destruct (Py.isspace c); [auto | discriminate].
Qed.

Lemma split_rstrip s : Py.split (Py.rstrip_by Py.isspace s) = Py.split s.
Proof.
  induction s as [|c s IH]; [reflexivity|].
  rewrite rstrip_by_cons.
  destruct (Py.rstrip_by Py.isspace s) as [|d r] eqn:E; cbn [isnil].
  - pose proof (rstrip_nil_split s E) as Hs.
    simpl. rewrite Hs. destruct (Py.isspace c) eqn:Hc; simpl; [reflexivity|].
    rewrite Hc. now destruct (Py.at_word_end s).
  - assert (Hhd : hd_error (d :: r) = hd_error s).
    { rewrite <- E. apply rstrip_by_hd. rewrite E. discriminate. }
    rewrite !(split_cons c), IH.
    destruct s as [|e s]; [discriminate|]. injection Hhd as ->.
    reflexivity.
Qed.

Lemma split_strip s : Py.split (Py.strip s) = Py.split s.
Proof. unfold Py.strip, Py.strip_by. now rewrite split_rstrip, split_lstrip. Qed.

Lemma strip_trimmed x : trimmed x -> Py.strip x = x.
Proof.
  intros (_ & Hl & Hr). unfold Py.strip, Py.strip_by. now rewrite Hl, Hr.
Qed.

Lemma trimmed_strip x : Py.strip x <> [] -> trimmed (Py.strip x).
Proof.
  intros Hne. split; [assumption|]. apply strip_by_fix.
Qed.

Lemma token_trimmed w : token w -> trimmed w.
Proof.
  intros [Hne Hall]. split; [assumption|]. split.
  - apply lstrip_by_fix. intros c Hc. destruct w; [discriminate|].
    injection Hc as ->. now inversion Hall.
  - clear Hne. induction Hall as [|c w Hc Hw IH]; [reflexivity|].
    rewrite rstrip_by_cons, IH. destruct w; simpl; [now rewrite Hc | reflexivity].
Qed.

Lemma trimmed_join l :
  Forall trimmed l -> l <> [] -> trimmed (Py.join [space] l).
Proof.
  induction 1 as [|x l Hx Hl IH]; [congruence|]. intros _.
  destruct l as [|y l]; [exact Hx|].
  rewrite join_cons by discriminate.
  destruct IH as (Hne & Hlj & Hrj); [discriminate|].
  destruct Hx as (Hxne & Hxl & Hxr).
  split; [destruct x; [congruence | discriminate]|]. split.
  - apply lstrip_by_fix. intros c Hc.
    destruct x as [|d x]; [congruence|]. injection Hc as <-.
    apply (lstrip_by_hd Py.isspace (d :: x)). now rewrite Hxl.
  - rewrite app_assoc. rewrite rstrip_by_app by (rewrite Hrj; exact Hne).
    now rewrite Hrj.
Qed.

Lemma strip_join_tokens ws :
  Forall token ws -> Py.strip (Py.join [space] ws) = Py.join [space] ws.
Proof.
  intros H. destruct ws as [|w ws]; [reflexivity|].
  apply strip_trimmed, trimmed_join; [|discriminate].
  eapply Forall_impl; [|exact H]. apply token_trimmed.
Qed.

(** * Facts about [re.sub] and [re.search] *)

Section SubFacts.
Variables (p : Re.pattern) (repl : str -> str).

Lemma sub_from_skip k : forall s prev,
  Re.sub_from p repl prev k s =
  Re.sub_from p repl (prev_after prev (firstn k s)) 0 (skipn k s).
Proof.
  induction k as [|k IH]; intros s prev; [reflexivity|].
  destruct s as [|c s]; [reflexivity|]. simpl. apply IH.
Qed.

(** One step of the scan: a match is replaced and passed over, any other
    character is copied. *)
Lemma sub_from_cons prev c s :
  Re.sub_from p repl prev 0 (c :: s) =
  match p prev (c :: s) with
  | Some (S n, g) =>
      repl g ++ Re.sub_from p repl (prev_after (Some c) (firstn n s)) 0 (skipn n s)
  | _ => c :: Re.sub_from p repl (Some c) 0 s
  end.
Proof.
  simpl. destruct (p prev (c :: s)) as [[[|n] g]|]; try reflexivity.
  now rewrite sub_from_skip.
Qed.

Lemma Forall_sub_from (P : char -> Prop) :
  (forall prev s n g, p prev s = Some (n, g) -> Forall P (repl g)) ->
  forall s prev k, Forall P s -> Forall P (Re.sub_from p repl prev k s).
Proof.
  intros Hrepl. induction s as [|c s IH]; intros prev k Hs; [constructor|].
  inversion Hs; subst. simpl. destruct k as [|k]; [|now apply IH].
  destruct (p prev (c :: s)) as [[[|n] g]|] eqn:E.
  - constructor; auto.
  - apply Forall_app. split; [now apply (Hrepl _ _ _ _ E) | now apply IH].
  - constructor; auto.
Qed.

(** Where the pattern matches nowhere, nothing is replaced. *)
Lemma sub_from_no_match : forall s prev,
  Re.search_from p prev s = false -> Re.sub_from p repl prev 0 s = s.
Proof.
  induction s as [|c s IH]; intros prev H; [reflexivity|].
  simpl in *. destruct (p prev (c :: s)); [discriminate|].
  now rewrite IH.
Qed.

End SubFacts.

Lemma sub_char_class_delete f s :
  Re.sub (Re.char_class f) (fun _ => []) s = filter (fun c => negb (f c)) s.
Proof.
  unfold Re.sub. generalize (@None char) as prev.
  induction s as [|c s IH]; intros prev; [reflexivity|].
  simpl. destruct (f c); simpl; [apply IH | f_equal; apply IH].
Qed.

Lemma replace_char a b s :
  replace [a] [b] s = map (fun c => if (a =? c)%N then b else c) s.
Proof.
  unfold replace, Re.sub. generalize (@None char) as prev.
  induction s as [|c s IH]; intros prev; [reflexivity|].
  simpl. unfold Re.literal_alt. simpl.
  destruct (a =? c)%N; simpl; f_equal; apply IH.
Qed.

Lemma skipn_run_length f s :
  skipn (Re.run_length f s) s = Py.lstrip_by f s.
Proof.
  induction s as [|c s IH]; [reflexivity|]. simpl.
  destruct (f c); [exact IH | reflexivity].
Qed.

(** ** White-space collapsing *)

Lemma ws_sub_space prev c s :
  Py.isspace c = true ->
  exists prev', ws_sub prev (c :: s) = space :: ws_sub prev' (Py.lstrip_by Py.isspace s).
Proof.
  intros Hc. unfold ws_sub. rewrite sub_from_cons.
  unfold Re.at_least. simpl. rewrite Hc. simpl.
  rewrite skipn_run_length. eauto.
Qed.

Lemma ws_sub_word prev c s :
  Py.isspace c = false -> ws_sub prev (c :: s) = c :: ws_sub (Some c) s.
Proof.
  intros Hc. unfold ws_sub. rewrite sub_from_cons.
  unfold Re.at_least. simpl. now rewrite Hc.
Qed.

Lemma lstrip_ws_sub prev s :
  exists prev',
    Py.lstrip_by Py.isspace (ws_sub prev s) = ws_sub prev' (Py.lstrip_by Py.isspace s).
Proof.
  destruct s as [|c s]; [exists prev; reflexivity|].
  destruct (Py.isspace c) eqn:Hc.
  - destruct (ws_sub_space prev c s Hc) as [q Hq]. rewrite Hq.
    exists q. simpl. rewrite Hc.
    apply lstrip_by_fix. intros d Hd.
    pose proof (lstrip_by_hd Py.isspace s) as Hhd.
    destruct (Py.lstrip_by Py.isspace s) as [|e u]; [discriminate|].
    rewrite ws_sub_word in Hd by (now apply Hhd).
    injection Hd as <-. now apply Hhd.
  - exists prev. simpl. rewrite Hc. rewrite ws_sub_word by assumption.
    simpl. now rewrite Hc.
Qed.

Lemma join_tokens_nonempty ws :
  Forall token ws -> ws <> [] -> Py.join [space] ws <> [].
Proof.
  intros H Hne. destruct ws as [|w ws]; [congruence|].
  inversion H as [|? ? [Hw _] _]; subst.
  destruct ws; simpl; destruct w; try congruence; discriminate.
Qed.

Lemma rstrip_ws_sub n : forall s prev,
  length s <= n ->
  Py.rstrip_by Py.isspace (ws_sub prev s) =
  (if Py.at_word_end s && negb (isnil (Py.split s)) then [space] else [])
  ++ Py.join [space] (Py.split s).
Proof.
  induction n as [|n IH]; intros s prev Hlen.
  - destruct s; [reflexivity | simpl in Hlen; lia].
  - destruct s as [|c s]; [reflexivity|]. simpl in Hlen.
    destruct (Py.isspace c) eqn:Hc.
    + destruct (ws_sub_space prev c s Hc) as [q ->].
      rewrite rstrip_by_cons, split_cons, Hc. cbn [Py.at_word_end]. rewrite Hc.
      assert (Hu : length (Py.lstrip_by Py.isspace s) <= n).
      { clear -Hlen. revert Hlen. generalize n.
        induction s as [|d s IHs]; intros m Hm; simpl in *; [lia|].
        destruct (Py.isspace d); simpl; [|lia].
        destruct m; [lia|]. specialize (IHs m). lia. }
      rewrite (IH _ q Hu), split_lstrip.
      assert (Hend : Py.at_word_end (Py.lstrip_by Py.isspace s)
                     && negb (isnil (Py.split s)) = false).
      { pose proof (lstrip_by_hd Py.isspace s) as Hhd.
        pose proof (split_lstrip s) as Hsp.
        destruct (Py.lstrip_by Py.isspace s) as [|e u]; simpl.
        - simpl in Hsp. now rewrite <- Hsp.
        - now rewrite (Hhd e eq_refl). }
      rewrite Hend. simpl.
      destruct (Py.split s) as [|w r] eqn:Es; [reflexivity|].
      pose proof (join_tokens_nonempty (w :: r)) as Hj.
      rewrite <- Es in Hj. specialize (Hj (split_tokens s)).
      rewrite Es in Hj. specialize (Hj ltac:(discriminate)).
      destruct (Py.join [space] (w :: r)); [congruence | reflexivity].
    + rewrite ws_sub_word by assumption.
      rewrite rstrip_by_cons, (IH s (Some c)) by lia.
      rewrite split_cons, Hc. cbn [Py.at_word_end]. rewrite Hc. cbn [andb app].
      destruct (Py.at_word_end s) eqn:Eend.
      * destruct (Py.split s) as [|w r] eqn:Es; [reflexivity|].
        cbn [isnil negb andb app]. rewrite (join_cons _ [c]) by discriminate.
        reflexivity.
      * cbn [andb app].
        pose proof (split_nonempty s Eend) as Hne.
        destruct (Py.split s) as [|w r] eqn:Es; [congruence|].
        pose proof (join_tokens_nonempty (w :: r)) as Hj.
        rewrite <- Es in Hj. specialize (Hj (split_tokens s)).
        rewrite Es in Hj. specialize (Hj ltac:(discriminate)).
        destruct (Py.join [space] (w :: r)) eqn:Ej; [congruence|].
        cbn [isnil Py.cons_word]. rewrite <- Ej.
        destruct r; reflexivity.
Qed.

(** Collapsing white space leaves the words, one space between them. *)
Lemma collapse_ws_words s : collapse_ws s = Py.join [space] (Py.split s).
Proof.
  unfold collapse_ws, Py.strip, Py.strip_by, Re.sub.
  destruct (lstrip_ws_sub None s) as [q Hq]. unfold ws_sub in Hq. rewrite Hq.
  fold (ws_sub q (Py.lstrip_by Py.isspace s)).
  rewrite (rstrip_ws_sub _ _ q (le_n _)), split_lstrip.
  pose proof (lstrip_by_hd Py.isspace s) as Hhd.
  pose proof (split_lstrip s) as Hsp.
  destruct (Py.lstrip_by Py.isspace s) as [|e u]; simpl.
  - simpl in Hsp. now rewrite <- Hsp.
  - now rewrite (Hhd e eq_refl).
Qed.

(** * The boundary scan *)

Lemma getitem_nth {A : Type} (l : list A) j a :
  nth_error l j = Some a -> Py.getitem l (Z.of_nat j) = Py.Ok a.
Proof.
  intros H. unfold Py.getitem.
  assert (j < length l) by (apply nth_error_Some; congruence).
  destruct (Z.ltb_spec (Z.of_nat j) 0); [lia|].
  destruct (Z.ltb_spec (Z.of_nat j) 0); [lia|].
  destruct (Z.leb_spec (Z.of_nat (length l)) (Z.of_nat j)); [lia|].
  simpl. now rewrite Nat2Z.id, H.
Qed.

Lemma nth_error_last {A : Type} (l : list A) d :
  l <> [] -> nth_error l (length l - 1) = Some (last l d).
Proof.
  induction l as [|x l IH]; [congruence|]. intros _.
  destruct l as [|y l]; [reflexivity|].
  change (last (x :: y :: l) d) with (last (y :: l) d).
  rewrite <- IH by discriminate. simpl. now rewrite Nat.sub_0_r.
Qed.

Lemma getitem_last {A : Type} (l : list A) d :
  l <> [] -> Py.getitem l (-1)%Z = Py.Ok (last l d).
Proof.
  intros Hne. unfold Py.getitem.
  assert (0 < length l) by (destruct l; [congruence | simpl; lia]).
  change (-1 <? 0)%Z with true. cbv iota.
  destruct (Z.ltb_spec (-1 + Z.of_nat (length l)) 0); [lia|].
  destruct (Z.leb_spec (Z.of_nat (length l)) (-1 + Z.of_nat (length l))); [lia|].
  cbn [orb].
  replace (Z.to_nat (-1 + Z.of_nat (length l))) with (length l - 1) by lia.
  now rewrite (nth_error_last l d Hne).
Qed.

Lemma skipn_cons_nth {A : Type} (l : list A) j a r :
  skipn j l = a :: r -> nth_error l j = Some a /\ skipn (S j) l = r.
Proof.
  revert l. induction j as [|j IH]; intros l H.
  - destruct l; [discriminate|]. simpl in H. injection H as -> ->. now split.
  - destruct l; [discriminate|]. simpl in H. apply IH in H. exact H.
Qed.

Lemma scan_first_match delims : forall rest j,
  skipn j delims = rest ->
  scan delims (map word_count delims) j rest =
  Py.Ok (match first_match rest with
         | Some k => Py.join [tilde] (skipn (j + k) delims)
         | None => []
         end).
Proof.
  induction rest as [|d rest IH]; intros j Hj; [reflexivity|].
  destruct (skipn_cons_nth _ _ _ _ Hj) as [Hnth Hrest].
  cbn [scan first_match]. unfold selects.
  destruct (heuristic1 d) eqn:H1; cbn [orb].
  - now rewrite Nat.add_0_r.
  - rewrite (getitem_nth _ j (word_count d)) by (now rewrite nth_error_map, Hnth).
    cbn [Py.bind].
    destruct (heuristic2 (word_count d) d).
    + now rewrite Nat.add_0_r.
    + rewrite (IH (S j) Hrest).
      destruct (first_match rest); simpl; [|reflexivity].
      now rewrite Nat.add_succ_r.
Qed.

Lemma first_match_bound segs k : first_match segs = Some k -> k < length segs.
Proof.
  revert k. induction segs as [|d r IH]; intros k; simpl; [discriminate|].
  destruct (selects d); [intros [= <-]; lia|].
  destruct (first_match r); simpl; [|discriminate].
  intros [= <-]. specialize (IH _ eq_refl). lia.
Qed.

(** ** The segments *)

Lemma split_on_no_sep sep s :
  Forall (Forall (fun c => c <> sep)) (Py.split_on sep s).
Proof.
  induction s as [|c s IH]; simpl; [repeat constructor|].
  destruct (N.eqb_spec c sep).
  - constructor; [constructor | assumption].
  - destruct (Py.split_on sep s); simpl.
    + repeat constructor; assumption.
    + inversion IH; subst. constructor; [now constructor | assumption].
Qed.

(** Every segment is trimmed, not empty and free of markers. *)
Lemma chain_delims_shape text_marked :
  Forall (fun d => trimmed d /\ Forall (fun c => c <> tilde) d)
         (chain_delims_of text_marked).
Proof.
  unfold chain_delims_of. apply Forall_map, Forall_forall.
  intros x Hx. apply filter_In in Hx. destruct Hx as [Hin Hne]. split.
  - apply trimmed_strip. destruct (Py.strip x); [discriminate | discriminate].
  - apply Forall_strip_by.
    pose proof (split_on_no_sep tilde text_marked) as H.
    rewrite Forall_forall in H. now apply H.
Qed.

Lemma map_join {f : char -> char} sep l :
  map f (Py.join sep l) = Py.join (map f sep) (map (map f) l).
Proof.
  induction l as [|x l IH]; [reflexivity|].
  destruct l as [|y l]; [reflexivity|].
  rewrite join_cons by discriminate.
  change (map (map f) (x :: y :: l)) with (map f x :: map (map f) (y :: l)).
  rewrite (join_cons (map f sep) (map f x)) by (simpl; discriminate).
  now rewrite !map_app, IH.
Qed.

Lemma untilde_fix d :
  Forall (fun c => c <> tilde) d -> replace [tilde] [space] d = d.
Proof.
  intros H. rewrite replace_char.
  induction H as [|c d Hc Hd IH]; [reflexivity|]. cbn [map]. rewrite IH.
  destruct (N.eqb_spec tilde c); [congruence | reflexivity].
Qed.

(** Joining segments with the marker and replacing the marker by a space
    is joining them with a space. *)
Lemma untilde_join l :
  Forall (Forall (fun c => c <> tilde)) l ->
  replace [tilde] [space] (Py.join [tilde] l) = Py.join [space] l.
Proof.
  intros H. rewrite replace_char, map_join. f_equal.
  induction H as [|d l Hd Hl IH]; [reflexivity|]. cbn [map]. rewrite IH. f_equal.
  rewrite <- replace_char. now apply untilde_fix.
Qed.

Lemma Forall_skipn {A : Type} (P : A -> Prop) k l :
  Forall P l -> Forall P (skipn k l).
Proof.
  revert l. induction k as [|k IH]; intros l H; [assumption|].
  destruct l; [constructor|]. inversion H; subst. now apply IH.
Qed.

Lemma Forall_last {A : Type} (P : A -> Prop) l d :
  Forall P l -> l <> [] -> P (last l d).
Proof.
  induction 1 as [|x l Hx Hl IH]; [congruence|]. intros _.
  destruct l; [assumption|]. apply IH. discriminate.
Qed.

Lemma skipn_nonempty {A : Type} k (l : list A) : k < length l -> skipn k l <> [].
Proof.
  intros H E. apply (f_equal (@length A)) in E.
  rewrite length_skipn in E. simpl in E. lia.
Qed.

(** What the loop and its fallback compute. *)
Lemma body_marked_first_match text_marked :
  body_marked_of text_marked =
  Py.Ok (match first_match (chain_delims_of text_marked) with
         | Some k => Py.join [space] (skipn k (chain_delims_of text_marked))
         | None => last (chain_delims_of text_marked) []
         end).
Proof.
  unfold body_marked_of.
  pose proof (chain_delims_shape text_marked) as Hshape.
  destruct (chain_delims_of text_marked) as [|d0 l0] eqn:El; [reflexivity|].
  rewrite <- El in *. set (segs := chain_delims_of text_marked) in *.
  assert (Hne : segs <> []) by (rewrite El; discriminate).
  replace (isnil segs) with false by (now rewrite El).
  rewrite (scan_first_match segs segs 0 eq_refl). cbn [Py.bind].
  assert (Htr : Forall trimmed segs) by (eapply Forall_impl; [|exact Hshape]; now intros ? []).
  assert (Hti : Forall (Forall (fun c => c <> tilde)) segs)
    by (eapply Forall_impl; [|exact Hshape]; now intros ? []).
  destruct (first_match segs) as [k|] eqn:Ek.
  - pose proof (first_match_bound _ _ Ek) as Hk. simpl.
    pose proof (skipn_nonempty k segs Hk) as Hsk.
    assert (Hj : Py.join [tilde] (skipn k segs) <> []).
    { destruct (skipn k segs) as [|x r] eqn:Ex; [congruence|].
      assert (Hx : trimmed x).
      { pose proof (Forall_skipn _ k _ Htr) as F. rewrite Ex in F. now inversion F. }
      destruct Hx as [Hx _]. destruct r; simpl; destruct x; try congruence; discriminate. }
    destruct (Py.join [tilde] (skipn k segs)) eqn:Ej; [congruence|].
    cbn [isnil Py.bind]. rewrite <- Ej.
    rewrite untilde_join by (now apply Forall_skipn).
    f_equal. apply strip_trimmed, trimmed_join; [now apply Forall_skipn | assumption].
  - cbn [isnil]. rewrite (getitem_last segs []) by assumption. cbn [Py.bind].
    rewrite untilde_fix by (now apply Forall_last).
    f_equal. apply strip_trimmed. now apply Forall_last.
Qed.

(** ** Searching for literal alternatives *)

Lemma startswith_iff l s :
  Py.startswith l s = true <-> exists post, s = l ++ post.
Proof.
  revert s. induction l as [|a l IH]; intros s; simpl.
  - split; [eauto | reflexivity].
  - destruct s as [|c s].
    + split; [discriminate | intros [post H]; discriminate].
    + rewrite andb_true_iff, N.eqb_eq, IH. split.
      * intros [-> [post ->]]. eauto.
      * intros [post [= -> ->]]. eauto.
Qed.

Lemma literal_alt_some ls prev s :
  Re.literal_alt ls prev s <> None <-> exists l, In l ls /\ Py.startswith l s = true.
Proof.
  unfold Re.literal_alt.
  destruct (find (fun l => Py.startswith l s) ls) as [l|] eqn:E.
  - apply find_some in E. split; [eauto | discriminate].
  - split; [congruence|]. intros (l & Hin & Hl).
    now rewrite (find_none _ _ E l Hin) in Hl.
Qed.

Lemma search_literal_alt ls : forall s prev,
  Re.search_from (Re.literal_alt ls) prev s = true <-> contains_any ls s.
Proof.
  induction s as [|c s IH]; intros prev.
  - cbn [Re.search_from].
    destruct (Re.literal_alt ls prev []) eqn:E.
    + split; [intros _|reflexivity].
      assert (H : Re.literal_alt ls prev [] <> None) by congruence.
      apply literal_alt_some in H. destruct H as (l & Hin & Hl).
      apply startswith_iff in Hl. destruct Hl as [post ->].
      now exists [], l, post.
    + split; [discriminate|]. intros (pre & l & post & Hin & Hs).
      assert (H : Re.literal_alt ls prev [] <> None).
      { apply literal_alt_some. exists l. split; [assumption|].
        destruct pre; [|discriminate]. apply startswith_iff. eauto. }
      congruence.
  - cbn [Re.search_from].
    destruct (Re.literal_alt ls prev (c :: s)) eqn:E.
    + split; [intros _|reflexivity].
      assert (H : Re.literal_alt ls prev (c :: s) <> None) by congruence.
      apply literal_alt_some in H. destruct H as (l & Hin & Hl).
      apply startswith_iff in Hl. destruct Hl as [post Hs].
      exists [], l, post. now split.
    + rewrite IH. split.
      * intros (pre & l & post & Hin & ->). now exists (c :: pre), l, post.
      * intros (pre & l & post & Hin & Hs).
        destruct pre as [|d pre].
        -- exfalso.
           assert (H : Re.literal_alt ls prev (c :: s) <> None).
           { apply literal_alt_some. exists l. split; [assumption|].
             apply startswith_iff. eauto. }
           congruence.
        -- injection Hs as -> ->. now exists pre, l, post.
Qed.

(** ** Normalised text and the realignment *)

Lemma normalize_words text :
  normalize text = Py.join [space] (Py.split (normalize text)).
Proof.
  unfold normalize. destruct text as [|c text]; [reflexivity|]. cbn [isnil].
  rewrite collapse_ws_words. now rewrite split_join by apply split_tokens.
Qed.

Lemma Forall_firstn {A : Type} (P : A -> Prop) k l :
  Forall P l -> Forall P (firstn k l).
Proof.
  revert l. induction k as [|k IH]; intros l H; [constructor|].
  destruct l; [constructor|]. inversion H; subst. simpl. constructor; auto.
Qed.

Lemma diff_of_lt text body_marked :
  Py.split text <> [] -> diff_of text body_marked < length (Py.split text).
Proof.
  intros Hne. unfold diff_of.
  destruct (Py.split text) as [|w ws]; [congruence|].
  destruct (Py.split body_marked) as [|b bs]; cbn [isnil orb]; [simpl; lia|].
  destruct (Nat.leb_spec (length (w :: ws)) (length (b :: bs))); simpl in *; lia.
Qed.

Lemma apply_split_diff text body_marked :
  text = Py.join [space] (Py.split text) ->
  apply_split text body_marked =
  (Py.join [space] (firstn (diff_of text body_marked) (Py.split text)),
   Py.join [space] (skipn (diff_of text body_marked) (Py.split text))).
Proof.
  intros Htext. unfold apply_split, diff_of.
  destruct (isnil (Py.split text) || isnil (Py.split body_marked)
            || (length (Py.split text) <=? length (Py.split body_marked))).
  - simpl. now rewrite <- Htext.
  - rewrite !strip_join_tokens; [reflexivity | |].
    + apply Forall_skipn, split_tokens.
    + apply Forall_firstn, split_tokens.
Qed.

(** The chain and the body put together again are the text. *)
Lemma apply_split_rejoin text body_marked :
  text = Py.join [space] (Py.split text) ->
  Py.strip (fst (apply_split text body_marked) ++ [space]
            ++ snd (apply_split text body_marked)) = text.
Proof.
  intros Htext. rewrite (apply_split_diff _ _ Htext). cbn [fst snd].
  set (d := diff_of text body_marked).
  assert (Hstrip : Py.strip text = text).
  { rewrite Htext. apply strip_join_tokens, split_tokens. }
  destruct (Py.split text) as [|w ws] eqn:Etoks.
  - rewrite firstn_nil, skipn_nil. now rewrite Htext.
  - assert (Hd : d < length (w :: ws)).
    { rewrite <- Etoks. apply diff_of_lt. rewrite Etoks. discriminate. }
    destruct d as [|d].
    + change (firstn 0 (w :: ws)) with (@nil str).
      change (skipn 0 (w :: ws)) with (w :: ws). rewrite <- Htext.
      exact Hstrip.
    + rewrite <- join_app.
      * now rewrite firstn_skipn, <- Htext.
      * simpl. discriminate.
      * now apply skipn_nonempty.
Qed.

(** ** Words under deletion of characters *)

Lemma split_word w rest :
  token w -> Py.at_word_end rest = true -> Py.split (w ++ rest) = w :: Py.split rest.
Proof.
  intros Hw Hrest. destruct rest as [|c r].
  - rewrite app_nil_r. now apply split_token.
  - simpl in Hrest. rewrite split_app_space by assumption.
    rewrite split_token by assumption. rewrite split_cons, Hrest. reflexivity.
Qed.

(** A text that starts inside a word is that word followed by the rest. *)
Lemma first_word s :
  Py.at_word_end s = false ->
  exists w rest, s = w ++ rest /\ token w /\ Py.at_word_end rest = true.
Proof.
  induction s as [|c s IH]; [discriminate|]. cbn [Py.at_word_end]. intros Hc.
  destruct (Py.at_word_end s) eqn:E.
  - exists [c], s. split; [reflexivity|]. split; [|assumption].
    split; [discriminate | now repeat constructor].
  - destruct (IH eq_refl) as (w & rest & -> & [Hne Hw] & Hrest).
    exists (c :: w), rest. split; [reflexivity|]. split; [|assumption].
    split; [discriminate | now constructor].
Qed.

Section FilterWords.
Variable keep : char -> bool.
Hypothesis keep_space : forall c, Py.isspace c = true -> keep c = true.

Lemma at_word_end_filter s :
  Py.at_word_end s = true -> Py.at_word_end (filter keep s) = true.
Proof.
  destruct s as [|c s]; [reflexivity|]. simpl. intros Hc.
  rewrite (keep_space c Hc). exact Hc.
Qed.

Lemma filter_token w : token w -> filter keep w = [] \/ token (filter keep w).
Proof.
  intros [_ Hw]. destruct (filter keep w) as [|x fw] eqn:E; [now left|]. right.
  split; [discriminate|]. rewrite <- E. apply Forall_forall. intros y Hy.
  apply filter_In in Hy. rewrite Forall_forall in Hw. now apply Hw.
Qed.

(** Deleting characters that are not white space deletes them inside the
    words, and drops the words left empty. *)
Lemma split_filter n : forall s,
  length s <= n ->
  Py.split (filter keep s) =
  filter (fun w => negb (isnil w)) (map (filter keep) (Py.split s)).
Proof.
  induction n as [|n IH]; intros s Hlen.
  - destruct s; [reflexivity | simpl in Hlen; lia].
  - destruct s as [|c s]; [reflexivity|]. simpl in Hlen.
    destruct (Py.isspace c) eqn:Hc.
    + cbn [filter]. rewrite (keep_space c Hc), !split_cons, Hc. apply IH. lia.
    + destruct (first_word (c :: s) Hc) as (w & rest & Heq & Hw & Hrest).
      rewrite Heq, filter_app, (split_word w rest Hw Hrest).
      cbn [map filter].
      assert (Hlen' : length rest <= n).
      { apply (f_equal (@length char)) in Heq. rewrite length_app in Heq.
        destruct Hw as [Hne _]. destruct w; [congruence|]. simpl in *. lia. }
      destruct (filter_token w Hw) as [E|Ht].
      * rewrite E. cbn [app isnil negb]. now apply IH.
      * rewrite split_word; [| assumption | now apply at_word_end_filter].
        destruct (filter keep w) as [|x fw] eqn:E; [destruct Ht; congruence|].
        cbn [isnil negb]. f_equal. now apply IH.
Qed.

Lemma filter_join_space ws :
  filter keep (Py.join [space] ws) = Py.join [space] (map (filter keep) ws).
Proof.
  induction ws as [|w ws IH]; [reflexivity|].
  destruct ws as [|v ws]; [reflexivity|].
  rewrite join_cons by discriminate.
  change (map (filter keep) (w :: v :: ws))
    with (filter keep w :: map (filter keep) (v :: ws)).
  rewrite (join_cons [space] (filter keep w)) by (simpl; discriminate).
  rewrite !filter_app, IH. f_equal. f_equal.
  cbn [filter]. now rewrite (keep_space space eq_refl).
Qed.

End FilterWords.

Lemma split_join_any ws :
  Py.split (Py.join [space] ws) = concat (map Py.split ws).
Proof.
  induction ws as [|w ws IH]; [reflexivity|].
  destruct ws as [|v ws].
  - simpl. now rewrite app_nil_r.
  - rewrite join_cons by discriminate.
    change (w ++ [space] ++ Py.join [space] (v :: ws))
      with (w ++ space :: Py.join [space] (v :: ws)).
    rewrite split_app_space by reflexivity. now rewrite IH.
Qed.

(** Deleting characters that are not white space before or after the
    collapse of white space gives the same words. *)
Lemma collapse_filter_collapse keep s :
  (forall c, Py.isspace c = true -> keep c = true) ->
  collapse_ws (filter keep (collapse_ws s)) = collapse_ws (filter keep s).
Proof.
  intros Hkeep. rewrite !collapse_ws_words. f_equal.
  rewrite (filter_join_space keep Hkeep), split_join_any.
  rewrite (split_filter keep Hkeep _ s (le_n _)).
  generalize (split_tokens s). generalize (Py.split s) as ws.
  induction 1 as [|w ws Hw Hws IH]; [reflexivity|].
  cbn [map concat filter]. rewrite IH.
  destruct (filter_token keep w Hw) as [E|Ht].
  - rewrite E. reflexivity.
  - rewrite (split_token _ Ht).
    destruct (filter keep w); [destruct Ht; congruence | reflexivity].
Qed.

Section SubMore.
Variable p : Re.pattern.

(** Replacements that agree on the groups of the pattern give the same
    text. *)
Lemma sub_from_repl_ext r1 r2 :
  (forall prev s n g, p prev s = Some (n, g) -> r1 g = r2 g) ->
  forall s prev k, Re.sub_from p r1 prev k s = Re.sub_from p r2 prev k s.
Proof.
  intros Hr. induction s as [|c s IH]; intros prev k; [reflexivity|].
  simpl. destruct k as [|k]; [|apply IH].
  destruct (p prev (c :: s)) as [[[|n] g]|] eqn:E.
  - f_equal. apply IH.
  - rewrite (Hr _ _ _ _ E). f_equal. apply IH.
  - f_equal. apply IH.
Qed.

(** Deleting, from the result, characters the text does not have deletes
    them from the replacements. *)
Lemma filter_sub_from keep r :
  forall s prev k,
    Forall (fun c => keep c = true) s ->
    filter keep (Re.sub_from p r prev k s)
    = Re.sub_from p (fun g => filter keep (r g)) prev k s.
Proof.
  induction s as [|c s IH]; intros prev k Hs; [reflexivity|].
  inversion Hs as [|? ? Hc Hs']; subst.
  simpl. destruct k as [|k]; [|now apply IH].
  destruct (p prev (c :: s)) as [[[|n] g]|].
  - cbn [filter]. rewrite Hc. f_equal. now apply IH.
  - rewrite filter_app. f_equal. now apply IH.
  - cbn [filter]. rewrite Hc. f_equal. now apply IH.
Qed.

End SubMore.

Lemma prev_after_last prev l d :
  l <> [] -> prev_after prev l = Some (last l d).
Proof.
  revert prev. induction l as [|c l IH]; intros prev Hne; [congruence|].
  destruct l as [|e l]; [reflexivity|].
  change (prev_after prev (c :: e :: l)) with (prev_after (Some c) (e :: l)).
  rewrite IH by discriminate. reflexivity.
Qed.

Lemma firstn_length_app {A : Type} (a b : list A) : firstn (length a) (a ++ b) = a.
Proof. induction a; simpl; [now destruct b | now f_equal]. Qed.

Lemma skipn_length_app {A : Type} (a b : list A) : skipn (length a) (a ++ b) = b.
Proof. induction a; simpl; auto. Qed.


(** * Properties of the specification *)

(** ** Totality *)

Lemma segment_ok is_word text :
  exists body_marked,
    body_marked_of (text_marked_of is_word (normalize text)) = Py.Ok body_marked
    /\ segment is_word text = Py.Ok (apply_split (normalize text) body_marked).
Proof.
  unfold segment. rewrite body_marked_first_match.
  eexists. split; reflexivity.
Qed.

(** C6.  The core is total: for every table of word characters and every
    input text the pipeline returns a chain/body pair, never a fault; the
    row processing is total as well, and the empty text gives the empty
    chain and the empty body. *)
Theorem segment_total :
  (forall is_word text, exists chain body, segment is_word text = Py.Ok (chain, body))
  /\ (forall is_word r, exists ps, process_row is_word r = Py.Ok ps)
  /\ (forall is_word, segment is_word [] = Py.Ok ([], [])).
Proof.
  split; [|split].
  - intros is_word text. destruct (segment_ok is_word text) as (bm & _ & ->).
    destruct (apply_split (normalize text) bm) as [chain body]. eauto.
  - intros is_word r. unfold process_row.
    rewrite body_marked_first_match. cbn [Py.bind]. eauto.
  - intros is_word. reflexivity.
Qed.

(** ** Reconstruction *)

(** C1.  For every input text the split returns a chain and a body such
    that: the chain is the first [diff] words of the normalised text and
    the body the remaining ones, [diff] being the cut the realigner
    computes from the body candidate; and chain, one space, body, trimmed,
    is the normalised text, hence has the same words in the same order. *)
Theorem split_reconstructs_text :
  forall is_word text,
  exists body_marked chain body,
    body_marked_of (text_marked_of is_word (normalize text)) = Py.Ok body_marked
    /\ segment is_word text = Py.Ok (chain, body)
    /\ chain = Py.join [space] (firstn (diff_of (normalize text) body_marked)
                                     (Py.split (normalize text)))
    /\ body = Py.join [space] (skipn (diff_of (normalize text) body_marked)
                                    (Py.split (normalize text)))
    /\ Py.split chain = firstn (diff_of (normalize text) body_marked)
                               (Py.split (normalize text))
    /\ Py.split body = skipn (diff_of (normalize text) body_marked)
                             (Py.split (normalize text))
    /\ Py.split chain ++ Py.split body = Py.split (normalize text)
    /\ Py.strip (chain ++ [space] ++ body) = normalize text
    /\ Py.split (Py.strip (chain ++ [space] ++ body)) = Py.split (normalize text).
Proof.
  intros is_word text.
  destruct (segment_ok is_word text) as (bm & Hbm & Hseg).
  pose proof (normalize_words text) as Hn.
  pose proof (apply_split_rejoin (normalize text) bm Hn) as Hre.
  rewrite (apply_split_diff _ bm Hn) in Hseg, Hre. cbn [fst snd] in Hre.
  exists bm. do 2 eexists.
  split; [exact Hbm|]. split; [exact Hseg|].
  split; [reflexivity|]. split; [reflexivity|].
  assert (H1 : Py.split (Py.join [space] (firstn (diff_of (normalize text) bm)
                                                 (Py.split (normalize text))))
               = firstn (diff_of (normalize text) bm) (Py.split (normalize text)))
    by (apply split_join, Forall_firstn, split_tokens).
  assert (H2 : Py.split (Py.join [space] (skipn (diff_of (normalize text) bm)
                                                (Py.split (normalize text))))
               = skipn (diff_of (normalize text) bm) (Py.split (normalize text)))
    by (apply split_join, Forall_skipn, split_tokens).
  split; [exact H1|]. split; [exact H2|].
  split; [rewrite H1, H2; apply firstn_skipn|].
  split; [exact Hre | now rewrite Hre].
Qed.

(** C10.  The returned body is empty exactly when the normalised text is
    empty: the cut is strictly below the number of words whenever there is
    a word, so a non-empty normalised text leaves the body at least one
    word. *)
Theorem body_empty_iff_text_empty :
  forall is_word text,
  exists body_marked chain body,
    body_marked_of (text_marked_of is_word (normalize text)) = Py.Ok body_marked
    /\ segment is_word text = Py.Ok (chain, body)
    /\ (body = [] <-> normalize text = [])
    /\ (normalize text <> [] ->
        diff_of (normalize text) body_marked < length (Py.split (normalize text))
        /\ Py.split body <> []).
Proof.
  intros is_word text.
  destruct (segment_ok is_word text) as (bm & Hbm & Hseg).
  pose proof (normalize_words text) as Hn.
  rewrite (apply_split_diff _ bm Hn) in Hseg.
  exists bm. do 2 eexists.
  split; [exact Hbm|]. split; [exact Hseg|].
  set (d := diff_of (normalize text) bm).
  assert (Hcut : normalize text <> [] ->
                 d < length (Py.split (normalize text))).
  { intros Hne. apply diff_of_lt. intros E. apply Hne. now rewrite Hn, E. }
  assert (Hbody : normalize text <> [] ->
                  skipn d (Py.split (normalize text)) <> []).
  { intros Hne. apply skipn_nonempty. auto. }
  split; [split|].
  - intros Hb. destruct (normalize text) as [|c t] eqn:E; [reflexivity|].
    exfalso. rewrite <- E in *.
    apply (join_tokens_nonempty (skipn d (Py.split (normalize text)))).
    + apply Forall_skipn, split_tokens.
    + apply Hbody. rewrite E. discriminate.
    + exact Hb.
  - intros E. subst d. rewrite E. reflexivity.
  - intros Hne. split; [auto|].
    rewrite split_join by (apply Forall_skipn, split_tokens). auto.
Qed.

(** ** The boundary heuristics *)

Lemma first_match_skip : forall j segs,
  forallb (fun d => negb (selects d)) (firstn j segs) = true ->
  first_match segs = option_map (Nat.add j) (first_match (skipn j segs)).
Proof.
  induction j as [|j IH]; intros segs H.
  - simpl. now destruct (first_match segs).
  - destruct segs as [|d r]; [reflexivity|].
    simpl in H. apply andb_true_iff in H. destruct H as [Hd Hr].
    apply negb_true_iff in Hd. simpl. rewrite Hd, (IH r Hr).
    now destruct (first_match (skipn j r)).
Qed.

Lemma nth_error_skipn_cons {A : Type} : forall j (l : list A) a,
  nth_error l j = Some a -> skipn j l = a :: skipn (S j) l.
Proof.
  induction j as [|j IH]; intros [|x l] a H; try discriminate.
  - now injection H as ->.
  - simpl in H. now apply IH.
Qed.

Lemma heuristic1_contains delim :
  heuristic1 delim = true <-> contains_any [nabi; rasul] delim.
Proof. apply search_literal_alt. Qed.

Lemma patronymic_contains delim :
  Re.search patronymic delim = true
  <-> contains_any [[space] ++ bin ++ [space]; [space] ++ ibn ++ [space]] delim.
Proof. apply search_literal_alt. Qed.

Lemma scan_first_match_at text_marked j delim :
  nth_error (chain_delims_of text_marked) j = Some delim ->
  forallb (fun d => negb (selects d)) (firstn j (chain_delims_of text_marked)) = true ->
  selects delim = true ->
  body_marked_of text_marked =
  Py.Ok (Py.join [space] (skipn j (chain_delims_of text_marked))).
Proof.
  intros Hnth Hbefore Hs.
  rewrite body_marked_first_match.
  rewrite (first_match_skip j _ Hbefore).
  rewrite (nth_error_skipn_cons _ _ _ Hnth). cbn [first_match].
  rewrite Hs. cbn [option_map]. rewrite Nat.add_0_r.
  now rewrite <- (nth_error_skipn_cons _ _ _ Hnth).
Qed.

(** C2.  In a non-empty segment list, the scan stops at the lowest index
    whose segment satisfies heuristic 1 (it contains نبي or رسول) or
    heuristic 2: when no earlier segment satisfies either and segment [j]
    satisfies one of them, the body candidate is the segments from [j] on,
    joined by single spaces. *)
Theorem scan_stops_at_first_match :
  forall text_marked j delim,
    nth_error (chain_delims_of text_marked) j = Some delim ->
    forallb (fun d => negb (heuristic1 d || heuristic2 (word_count d) d))
            (firstn j (chain_delims_of text_marked)) = true ->
    contains_any [nabi; rasul] delim
    \/ heuristic2 (word_count delim) delim = true ->
    body_marked_of text_marked =
    Py.Ok (Py.join [space] (skipn j (chain_delims_of text_marked))).
Proof.
  intros text_marked j delim Hnth Hbefore Hsel.
  apply (scan_first_match_at text_marked j delim Hnth Hbefore).
  unfold selects. apply orb_true_iff.
  destruct Hsel as [H|H]; [left; now apply heuristic1_contains | now right].
Qed.

Lemma scan_stops_at_first_match_witness :
  nth_error (chain_delims_of marked_prophet) 1 = Some seg_prophet
  /\ body_marked_of marked_prophet =
     Py.Ok (Py.join [space] (skipn 1 (chain_delims_of marked_prophet))).
Proof.
  split; [vm_compute; reflexivity|].
  apply (scan_stops_at_first_match marked_prophet 1 seg_prophet).
  - vm_compute; reflexivity.
  - vm_compute; reflexivity.
  - left. exists [0x639; 0x646; 0x20; 0x627; 0x644]%N, nabi, [].
    split; [now left | vm_compute; reflexivity].
Defined.

(** C4.  When every segment of a non-empty segment list fails both
    heuristics, the body candidate is the last segment; when no segment is
    left, the body candidate is empty and the realigner returns the whole
    text as body with an empty chain. *)
Theorem fallback_last_segment :
  forall text_marked,
    (chain_delims_of text_marked <> [] ->
     forallb (fun d => negb (heuristic1 d || heuristic2 (word_count d) d))
             (chain_delims_of text_marked) = true ->
     body_marked_of text_marked = Py.Ok (last (chain_delims_of text_marked) []))
    /\ (chain_delims_of text_marked = [] ->
        body_marked_of text_marked = Py.Ok []
        /\ forall text, apply_split text [] = ([], text)).
Proof.
  intros text_marked. split.
  - intros _ Hall. rewrite body_marked_first_match.
    rewrite <- (firstn_all (chain_delims_of text_marked)) in Hall.
    rewrite (first_match_skip _ _ Hall), skipn_all. reflexivity.
  - intros Hnil. split.
    + rewrite body_marked_first_match, Hnil. reflexivity.
    + intros text. unfold apply_split. cbn [Py.split isnil].
      now rewrite orb_true_r.
Qed.

Lemma fallback_last_segment_witness :
  chain_delims_of marked_patronymic <> []
  /\ body_marked_of marked_patronymic = Py.Ok seg_qala
  /\ chain_delims_of [tilde; space; tilde] = []
  /\ body_marked_of [tilde; space; tilde] = Py.Ok [].
Proof.
  assert (Hne : chain_delims_of marked_patronymic <> [])
    by (vm_compute; discriminate).
  split; [exact Hne|].
  split.
  - apply (proj1 (fallback_last_segment marked_patronymic));
      [exact Hne | vm_compute; reflexivity].
  - split; [vm_compute; reflexivity|].
    apply (proj2 (fallback_last_segment [tilde; space; tilde])).
    vm_compute; reflexivity.
Defined.

(** C3, as stated, fails on the code: the pattern of heuristic 2 asks for a
    space on each side of بن or ابن, so a segment whose first word is ابن
    is not recognised.  The text ابن عمر كان يصلي في المسجد كل يوم قال كذا
    has an eight-word first segment that starts with the word ابن, fails
    heuristic 1, and is selected by heuristic 2 all the same. *)
Lemma patronymic_word_suppression_counterexample :
  chain_delims_of (text_marked_of latin_arabic_word (normalize text_leading_ibn))
  = [seg_leading_ibn; seg_qala]
  /\ word_count seg_leading_ibn = 8
  /\ heuristic1 seg_leading_ibn = false
  /\ In ibn (Py.split seg_leading_ibn)
  /\ heuristic2 (word_count seg_leading_ibn) seg_leading_ibn = true
  /\ segment latin_arabic_word text_leading_ibn = Py.Ok ([], text_leading_ibn)
  /\ ~ patronymic_word_suppression.
Proof.
  assert (Hin : In ibn (Py.split seg_leading_ibn)).
  { assert (Hsplit : exists r, Py.split seg_leading_ibn = ibn :: r)
      by (eexists; vm_compute; reflexivity).
    destruct Hsplit as [r ->]. left. exact eq_refl. }
  assert (Hwc : word_count seg_leading_ibn = 8) by (vm_compute; reflexivity).
  assert (Hh1 : heuristic1 seg_leading_ibn = false) by (vm_compute; reflexivity).
  assert (Hh2 : heuristic2 (word_count seg_leading_ibn) seg_leading_ibn = true)
    by (vm_compute; reflexivity).
  split; [vm_compute; reflexivity|].
  split; [exact Hwc|]. split; [exact Hh1|]. split; [exact Hin|].
  split; [exact Hh2|]. split; [vm_compute; reflexivity|].
  intros H. specialize (H seg_leading_ibn).
  rewrite H in Hh2; [discriminate | rewrite Hwc; lia | exact Hh1 | now right].
Qed.

(** C3, amended.  A segment of more than seven words that fails heuristic 1
    and is reached by the scan is selected by heuristic 2 exactly when it
    does not contain بن or ابن with a space on each side.  When it does
    contain one, heuristic 2 does not fire on it and the result is decided
    by the later segments: the first of them on which a heuristic holds, or
    else the last segment of the list. *)
Theorem patronymic_between_spaces_suppresses :
  forall text_marked j delim,
    nth_error (chain_delims_of text_marked) j = Some delim ->
    forallb (fun d => negb (heuristic1 d || heuristic2 (word_count d) d))
            (firstn j (chain_delims_of text_marked)) = true ->
    7 < word_count delim ->
    heuristic1 delim = false ->
    (contains_any [[space] ++ bin ++ [space]; [space] ++ ibn ++ [space]] delim ->
     heuristic2 (word_count delim) delim = false
     /\ body_marked_of text_marked =
        Py.Ok (match first_match (skipn (S j) (chain_delims_of text_marked)) with
               | Some k =>
                   Py.join [space] (skipn (S j + k) (chain_delims_of text_marked))
               | None => last (chain_delims_of text_marked) []
               end))
    /\ (~ contains_any [[space] ++ bin ++ [space]; [space] ++ ibn ++ [space]] delim ->
        heuristic2 (word_count delim) delim = true
        /\ body_marked_of text_marked =
           Py.Ok (Py.join [space] (skipn j (chain_delims_of text_marked)))).
Proof.
  intros text_marked j delim Hnth Hbefore Hlong Hh1.
  assert (Hlt : (7 <? word_count delim) = true) by (now apply Nat.ltb_lt).
  split.
  - intros Hpat. apply patronymic_contains in Hpat.
    assert (Hh2 : heuristic2 (word_count delim) delim = false).
    { unfold heuristic2. now rewrite Hpat, andb_false_r. }
    split; [exact Hh2|].
    rewrite body_marked_first_match.
    rewrite (first_match_skip j _ Hbefore).
    rewrite (nth_error_skipn_cons _ _ _ Hnth). cbn [first_match].
    unfold selects. rewrite Hh1, Hh2. cbn [orb].
    destruct (first_match (skipn (S j) (chain_delims_of text_marked))) as [k|];
      cbn [option_map]; [|reflexivity].
    now rewrite Nat.add_succ_r.
  - intros Hnone.
    assert (Hh2 : heuristic2 (word_count delim) delim = true).
    { unfold heuristic2. rewrite Hlt. cbn [andb]. apply negb_true_iff.
      destruct (Re.search patronymic delim) eqn:E; [|reflexivity].
      exfalso. apply Hnone. now apply patronymic_contains. }
    split; [exact Hh2|].
    apply (scan_first_match_at text_marked j delim Hnth Hbefore).
    unfold selects. now rewrite Hh2, orb_true_r.
Qed.

Lemma patronymic_between_spaces_suppresses_witness :
  nth_error (chain_delims_of marked_patronymic) 0 = Some seg_patronymic
  /\ 7 < word_count seg_patronymic
  /\ heuristic2 (word_count seg_patronymic) seg_patronymic = false
  /\ body_marked_of marked_patronymic = Py.Ok seg_qala.
Proof.
  assert (Hwc : word_count seg_patronymic = 10) by (vm_compute; reflexivity).
  assert (Hlong : 7 < word_count seg_patronymic) by (rewrite Hwc; lia).
  assert (Hnth : nth_error (chain_delims_of marked_patronymic) 0
                 = Some seg_patronymic) by (vm_compute; reflexivity).
  assert (Hpre : forallb (fun d => negb (heuristic1 d || heuristic2 (word_count d) d))
                         (firstn 0 (chain_delims_of marked_patronymic)) = true)
    by reflexivity.
  assert (Hh1 : heuristic1 seg_patronymic = false) by (vm_compute; reflexivity).
  split; [exact Hnth|]. split; [exact Hlong|].
  apply (proj1 (patronymic_between_spaces_suppresses
                  marked_patronymic 0 seg_patronymic
                  Hnth Hpre Hlong Hh1)).
  exists [0x62D; 0x62F; 0x62B; 0x646; 0x627; 0x20; 0x632; 0x64A; 0x62F]%N,
         ([space] ++ bin ++ [space]),
         [0x639; 0x645; 0x631; 0x20; 0x628; 0x646; 0x20; 0x639; 0x644; 0x64A; 0x20;
          0x628; 0x646; 0x20; 0x62D; 0x633; 0x646; 0x20; 0x628; 0x646; 0x20; 0x633;
          0x639; 0x62F]%N.
  split; [now left | vm_compute; reflexivity].
Defined.

(** ** Normalisation *)

Lemma contains_iff old s : contains old s = true <-> contains_any [old] s.
Proof. apply search_literal_alt. Qed.

Lemma honorific_forms_start f :
  In f honorific_forms -> exists suffix, f = radiya_allahu_anhu ++ suffix.
Proof.
  intros [<-|[<-|[<-|[<-|[]]]]]; eexists; reflexivity.
Qed.

Lemma no_phrase_no_honorific s :
  contains radiya_allahu_anhu s = false -> Re.search honorifics s = false.
Proof.
  intros H. destruct (Re.search honorifics s) eqn:E; [|reflexivity].
  apply search_literal_alt in E. destruct E as (pre & f & post & Hin & ->).
  destruct (honorific_forms_start f Hin) as [suffix ->].
  assert (C : contains radiya_allahu_anhu
                (pre ++ (radiya_allahu_anhu ++ suffix) ++ post) = true).
  { apply contains_iff. exists pre, radiya_allahu_anhu, (suffix ++ post).
    split; [now left | now rewrite <- !app_assoc]. }
  congruence.
Qed.

Lemma normalize_no_punctuation text :
  Forall (fun c => punctuation c = false) (normalize text).
Proof.
  unfold normalize. destruct (isnil text) eqn:E.
  - destruct text; [constructor | discriminate].
  - unfold collapse_ws, replace, Re.sub at 1 2 3. apply Forall_strip_by.
    apply Forall_sub_from; [intros; now repeat constructor|].
    apply Forall_sub_from; [intros; constructor|].
    apply Forall_sub_from; [intros; constructor|].
    rewrite sub_char_class_delete. apply Forall_forall.
    intros c Hc. apply filter_In in Hc. now apply negb_true_iff.
Qed.

Lemma filter_all (f : char -> bool) s :
  Forall (fun c => f c = true) s -> filter f s = s.
Proof.
  induction 1 as [|c s Hc Hs IH]; [reflexivity|]. simpl. now rewrite Hc, IH.
Qed.

(** C7, as stated, fails on the code: each removal is one left-to-right
    pass, and what is left around a removed phrase can form the phrase
    again.  رضى الله رضى الله عنه عنه normalises to رضى الله عنه, which
    normalises to the empty text. *)
Lemma normalize_idempotent_counterexample :
  normalize text_nested_honorific = radiya_allahu_anhu
  /\ normalize (normalize text_nested_honorific) = []
  /\ normalize (normalize text_nested_honorific) <> normalize text_nested_honorific.
Proof.
  split; [vm_compute; reflexivity|]. split; [vm_compute; reflexivity|].
  vm_compute. discriminate.
Qed.

(** C7, amended.  Normalisation is idempotent on every text whose
    normalised form contains neither the honorific phrase رضى الله عنه nor
    the benediction صلى الله عليه وسلم. *)
Theorem normalize_idempotent_when_clean :
  forall text,
    contains radiya_allahu_anhu (normalize text) = false ->
    contains benediction (normalize text) = false ->
    normalize (normalize text) = normalize text.
Proof.
  intros text Hh Hb.
  pose proof (normalize_no_punctuation text) as Hp.
  pose proof (normalize_words text) as Hw.
  set (n := normalize text) in *.
  unfold normalize at 1. destruct (isnil n); [reflexivity|].
  rewrite sub_char_class_delete.
  rewrite filter_all
    by (eapply Forall_impl; [|exact Hp]; intros c Hc; now rewrite Hc).
  unfold Re.sub at 1. rewrite sub_from_no_match by (now apply no_phrase_no_honorific).
  unfold replace, Re.sub at 1. rewrite sub_from_no_match by exact Hb.
  rewrite collapse_ws_words. now rewrite <- Hw.
Qed.

Lemma normalize_idempotent_when_clean_witness :
  contains radiya_allahu_anhu (normalize text_with_honorific) = false
  /\ contains benediction (normalize text_with_honorific) = false
  /\ normalize (normalize text_with_honorific) = normalize text_with_honorific.
Proof.
  assert (Hh : contains radiya_allahu_anhu (normalize text_with_honorific) = false)
    by (vm_compute; reflexivity).
  assert (Hb : contains benediction (normalize text_with_honorific) = false)
    by (vm_compute; reflexivity).
  split; [exact Hh|]. split; [exact Hb|].
  exact (normalize_idempotent_when_clean text_with_honorific Hh Hb).
Defined.

(** ** Honorific removal *)



Lemma startswith_comparable a : forall b s,
  Py.startswith a s = true -> Py.startswith b s = true ->
  length a <= length b -> Py.startswith a b = true.
Proof.
  induction a as [|x a IH]; intros b s Ha Hb Hlen; [reflexivity|].
  destruct b as [|y b]; [simpl in Hlen; lia|].
  destruct s as [|c s]; [discriminate|]. simpl in *.
  apply andb_true_iff in Ha. destruct Ha as [Hx Ha].
  apply andb_true_iff in Hb. destruct Hb as [Hy Hb].
  apply N.eqb_eq in Hx, Hy. subst. rewrite N.eqb_refl. cbn [andb].
  apply (IH b s); [assumption | assumption | lia].
Qed.


(** *** A phrase that no removal puts together *)













Section Deletion.
Variable p : Re.pattern.
Hypothesis p_prev : forall a b s, p a s = p b s.
Hypothesis p_start :
  forall prev c s n g, p prev (c :: s) = Some (n, g) -> Py.isspace c = false.









End Deletion.






















(** Each of the three conditions is needed.  Of the four texts below, each
    contains the phrase and fails one condition only, and its normalised
    form is the phrase: the phrase a second time with two spaces, an
    honorific between the words of the phrase, an honorific inside the
    first word, a benediction inside the first word. *)
Remark honorific_conditions_needed :
  Forall
    (fun text =>
       contains radiya_allahu_anhu text = true
       /\ normalize text = radiya_allahu_anhu)
    [text_honorific_two_spaces; text_nested_honorific;
     text_honorific_in_word; text_benediction_in_word]
  /\ map (fun text =>
            (single_spaced radiya_allahu_anhu (without_punctuation text),
             no_match_between honorifics radiya_allahu_anhu (without_punctuation text),
             no_match_between (Re.literal_alt [benediction]) radiya_allahu_anhu
                             (without_honorifics text)))
         [text_honorific_two_spaces; text_nested_honorific;
          text_honorific_in_word; text_benediction_in_word]
     = [(false, true, true); (true, false, true);
        (true, false, true); (true, true, false)].
Proof.
  split; [repeat constructor; vm_compute; reflexivity | vm_compute; reflexivity].
Qed.

(** ** The English clean-up *)

Lemma squeeze_cons c s :
  squeeze_quotes (c :: s) =
  if (quote =? c)%N && next_is_quote s then squeeze_quotes s
  else c :: squeeze_quotes s.
Proof. reflexivity. Qed.

Lemma next_is_quote_cons d s : next_is_quote (d :: s) = (quote =? d)%N.
Proof. reflexivity. Qed.

Lemma squeeze_run s :
  squeeze_quotes (quote :: s) = quote :: squeeze_quotes (Py.lstrip_by (N.eqb quote) s).
Proof.
  induction s as [|c s IH]; [reflexivity|].
  cbn [Py.lstrip_by]. rewrite (squeeze_cons quote), N.eqb_refl, next_is_quote_cons.
  destruct (quote =? c)%N eqn:Ec; cbn [andb]; [|reflexivity].
  apply N.eqb_eq in Ec. subst c. exact IH.
Qed.

Lemma lstrip_by_length p s : length (Py.lstrip_by p s) <= length s.
Proof.
  induction s as [|c s IH]; simpl; [lia|]. destruct (p c); simpl; lia.
Qed.

(** The substitution of quote runs is the squeeze. *)
Lemma sub_quotes_squeeze n : forall s prev,
  length s <= n ->
  Re.sub_from (Re.at_least 2 (N.eqb quote)) (fun _ => [quote]) prev 0 s
  = squeeze_quotes s.
Proof.
  induction n as [|n IH]; intros s prev Hlen.
  - destruct s; [reflexivity | simpl in Hlen; lia].
  - destruct s as [|c s]; [reflexivity|]. simpl in Hlen.
    rewrite sub_from_cons, squeeze_cons. unfold Re.at_least.
    cbn [Re.run_length].
    destruct (quote =? c)%N eqn:Ec; cbn [andb].
    + destruct s as [|d s].
      * reflexivity.
      * rewrite next_is_quote_cons. cbn [Re.run_length].
        destruct (quote =? d)%N eqn:Ed.
        -- cbn [Nat.leb skipn]. rewrite skipn_run_length.
           rewrite IH by (pose proof (lstrip_by_length (N.eqb quote) s);
                          simpl in Hlen; lia).
           apply N.eqb_eq in Ed. subst d. now rewrite squeeze_run.
        -- cbn [Nat.leb]. now rewrite IH by lia.
    + cbn [Nat.leb]. now rewrite IH by lia.
Qed.

Lemma next_is_quote_squeeze s : next_is_quote (squeeze_quotes s) = next_is_quote s.
Proof.
  induction s as [|c s IH]; [reflexivity|]. rewrite squeeze_cons.
  destruct ((quote =? c)%N && next_is_quote s) eqn:E; [|reflexivity].
  apply andb_true_iff in E. destruct E as [Ec En].
  now rewrite IH, En, next_is_quote_cons, Ec.
Qed.

Lemma squeeze_no_adjacent s : adjacent_quotes (squeeze_quotes s) = false.
Proof.
  induction s as [|c s IH]; [reflexivity|]. rewrite squeeze_cons.
  destruct ((quote =? c)%N && next_is_quote s) eqn:E; [assumption|].
  cbn [adjacent_quotes]. now rewrite next_is_quote_squeeze, E, IH.
Qed.

Lemma squeeze_nil s : squeeze_quotes s = [] -> s = [].
Proof.
  induction s as [|c s IH]; [reflexivity|]. rewrite squeeze_cons.
  destruct ((quote =? c)%N && next_is_quote s) eqn:E; [|discriminate].
  intros H. apply IH in H. subst. apply andb_true_iff in E.
  destruct E as [_ E]. discriminate.
Qed.

Lemma last_cons_nonempty {A : Type} (c : A) l d :
  l <> [] -> last (c :: l) d = last l d.
Proof. destruct l; [congruence | reflexivity]. Qed.

Lemma last_squeeze s d : last (squeeze_quotes s) d = last s d.
Proof.
  induction s as [|c s IH]; [reflexivity|]. rewrite squeeze_cons.
  destruct ((quote =? c)%N && next_is_quote s) eqn:E.
  - apply andb_true_iff in E. destruct E as [_ E].
    rewrite IH. symmetry. apply last_cons_nonempty.
    destruct s; [discriminate | discriminate].
  - destruct s as [|e s]; [reflexivity|].
    rewrite (last_cons_nonempty c (e :: s)) by discriminate.
    rewrite (last_cons_nonempty c (squeeze_quotes (e :: s))); [exact IH|].
    intros H. apply squeeze_nil in H. discriminate.
Qed.

Lemma rstrip_by_fix_last p s d :
  Py.rstrip_by p s = s -> s <> [] -> p (last s d) = false.
Proof.
  induction s as [|c s IH]; [congruence|]. intros H _.
  rewrite rstrip_by_cons in H.
  destruct (Py.rstrip_by p s) as [|e r] eqn:E; cbn [isnil] in H.
  - destruct (p c) eqn:Hc; [discriminate|]. injection H as <-. exact Hc.
  - injection H as H. destruct s as [|e' s']; [discriminate|].
    apply IH; [congruence | discriminate].
Qed.

Lemma normalize_en_squeeze s :
  normalize_en s =
  squeeze_quotes (if Py.startswith [quote] s
                  then Py.strip_by (N.eqb quote) s else s).
Proof. unfold normalize_en, Re.sub. apply (sub_quotes_squeeze _ _ _ (le_n _)). Qed.

(** C9, as stated, fails on the code: [strip] with a character set removes
    every leading and every trailing quote, not one pair.  Two quotes, a,
    two quotes becomes a; stripping a single pair and collapsing would
    leave a between two quotes. *)
Lemma single_quote_pair_counterexample :
  Py.startswith [quote] text_en_doubled = true
  /\ normalize_en text_en_doubled = [0x61]%N
  /\ normalize_en_single_pair text_en_doubled = [0x22; 0x61; 0x22]%N
  /\ normalize_en text_en_doubled <> normalize_en_single_pair text_en_doubled.
Proof.
  split; [vm_compute; reflexivity|]. split; [vm_compute; reflexivity|].
  split; [vm_compute; reflexivity|]. vm_compute. discriminate.
Qed.

(** C9, amended.  For every row, the English text (the empty text when the
    field is absent) is cleaned as follows and the result is bound both to
    [text_en] and to [body_en]: when it starts with a quote, every leading
    and every trailing quote is stripped, so the result neither starts nor
    ends with a quote; then every run of two or more quotes is collapsed to
    one, so no two quotes are adjacent in the result. *)
Theorem english_text_cleanup :
  forall is_word r,
  exists ps,
    process_row is_word r = Py.Ok ps
    /\ p_text_en ps = normalize_en (or_empty (text_en r))
    /\ p_body_en ps = p_text_en ps
    /\ normalize_en (or_empty (text_en r)) =
       squeeze_quotes
         (if Py.startswith [quote] (or_empty (text_en r))
          then Py.strip_by (N.eqb quote) (or_empty (text_en r))
          else or_empty (text_en r))
    /\ adjacent_quotes (normalize_en (or_empty (text_en r))) = false
    /\ (Py.startswith [quote] (or_empty (text_en r)) = true ->
        next_is_quote (normalize_en (or_empty (text_en r))) = false
        /\ (normalize_en (or_empty (text_en r)) <> [] ->
            last (normalize_en (or_empty (text_en r))) space <> quote)).
Proof.
  intros is_word r. unfold process_row.
  rewrite body_marked_first_match. cbn [Py.bind].
  eexists. split; [reflexivity|]. cbn [p_text_en p_body_en].
  split; [reflexivity|]. split; [reflexivity|].
  set (s := or_empty (text_en r)).
  split; [apply normalize_en_squeeze|].
  split; [rewrite normalize_en_squeeze; apply squeeze_no_adjacent|].
  intros Hq. rewrite normalize_en_squeeze, Hq.
  destruct (strip_by_fix (N.eqb quote) s) as [Hl Hr].
  split.
  - rewrite next_is_quote_squeeze.
    pose proof (lstrip_by_hd (N.eqb quote) (Py.strip_by (N.eqb quote) s)) as Hhd.
    rewrite Hl in Hhd.
    destruct (Py.strip_by (N.eqb quote) s) as [|c t]; [reflexivity|].
    exact (Hhd c eq_refl).
  - intros Hne. rewrite last_squeeze.
    assert (Hne' : Py.strip_by (N.eqb quote) s <> []).
    { intros E. apply Hne. now rewrite E. }
    pose proof (rstrip_by_fix_last _ _ space Hr Hne') as Hlast.
    intros E. rewrite E in Hlast. discriminate.
Qed.

Lemma english_text_cleanup_witness :
  Py.startswith [quote] (or_empty (text_en row_example)) = true
  /\ normalize_en (or_empty (text_en row_example)) = [0x61; 0x22; 0x62]%N
  /\ exists ps, process_row latin_arabic_word row_example = Py.Ok ps
                /\ p_body_en ps = p_text_en ps.
Proof.
  split; [vm_compute; reflexivity|]. split; [vm_compute; reflexivity|].
  destruct (english_text_cleanup latin_arabic_word row_example)
    as (ps & Hps & _ & Hbody & _).
  exists ps. split; assumption.
Defined.

(** ** The chain markers *)

Lemma same_words_app g : forall y1 y2,
  Py.split y1 = Py.split y2 -> Py.at_word_end y1 = Py.at_word_end y2 ->
  Py.split (g ++ y1) = Py.split (g ++ y2)
  /\ Py.at_word_end (g ++ y1) = Py.at_word_end (g ++ y2).
Proof.
  induction g as [|c g IH]; intros y1 y2 Hs He; [now split|].
  destruct (IH y1 y2 Hs He) as [IHs IHe]. cbn [app].
  rewrite !split_cons, IHs, IHe. now split.
Qed.

Section Marking.
Variable is_word : char -> bool.
Hypothesis letters_are_word : forallb is_word keyword_letters = true.

Lemma keyword_letter_word c : In c keyword_letters -> is_word c = true.
Proof.
  intros H. rewrite forallb_forall in letters_are_word.
  now apply letters_are_word.
Qed.

(** Every keyword starts and ends with one of its letters and holds no
    marker. *)
Lemma keyword_shape g :
  In g chain_keywords ->
  g <> []
  /\ is_word (hd space g) = true
  /\ is_word (last g space) = true
  /\ Py.isspace (last g space) = false
  /\ Forall (fun c => negb (c =? tilde)%N = true) g.
Proof.
  intros Hin.
  assert (Hall : forallb
                   (fun k => negb (isnil k)
                             && existsb (N.eqb (hd space k)) keyword_letters
                             && existsb (N.eqb (last k space)) keyword_letters
                             && negb (Py.isspace (last k space))
                             && forallb (fun c => negb (c =? tilde)%N) k)
                   chain_keywords = true) by (vm_compute; reflexivity).
  rewrite forallb_forall in Hall. specialize (Hall g Hin).
  repeat (apply andb_true_iff in Hall; destruct Hall as [Hall ?]).
  split; [destruct g; [discriminate | discriminate]|].
  split.
  { apply keyword_letter_word.
    match goal with H : existsb (N.eqb (hd space g)) _ = true |- _ =>
      apply existsb_exists in H; destruct H as (x & Hx & Hex) end.
    apply N.eqb_eq in Hex. now subst. }
  split.
  { apply keyword_letter_word.
    match goal with H : existsb (N.eqb (last g space)) _ = true |- _ =>
      apply existsb_exists in H; destruct H as (x & Hx & Hex) end.
    apply N.eqb_eq in Hex. now subst. }
  split; [now apply negb_true_iff|].
  apply Forall_forall, forallb_forall. assumption.
Qed.

Lemma keyword_at_some s k :
  keyword_at is_word s = Some k ->
  In k chain_keywords /\ exists rest, s = k ++ rest.
Proof.
  unfold keyword_at. intros H. apply find_some in H. destruct H as [Hin H].
  apply andb_true_iff in H. destruct H as [H _].
  split; [assumption | now apply startswith_iff].
Qed.

(** A match of the chain pattern starts on a word boundary and spans a
    keyword, or و and a keyword; group 1 is the keyword. *)
Lemma chain_pattern_some prev s n g :
  chain_pattern is_word prev s = Some (n, g) ->
  Re.word_boundary is_word prev (hd_error s) = true
  /\ In g chain_keywords
  /\ exists span rest,
       s = span ++ rest /\ n = length span /\ (span = g \/ span = waw :: g).
Proof.
  unfold chain_pattern.
  destruct (Re.word_boundary is_word prev (hd_error s)); [|discriminate].
  intros H. split; [reflexivity|].
  assert (Hplain :
            match keyword_at is_word s with
            | Some k => Some (length k, k)
            | None => None
            end = Some (n, g) ->
            In g chain_keywords
            /\ exists span rest,
                 s = span ++ rest /\ n = length span /\ (span = g \/ span = waw :: g)).
  { destruct (keyword_at is_word s) as [k|] eqn:Ek; [|discriminate].
    intros [= <- <-]. destruct (keyword_at_some _ _ Ek) as [Hin [rest ->]].
    split; [assumption|]. exists k, rest. auto. }
  destruct s as [|c s']; [now apply Hplain|].
  destruct (N.eqb_spec c waw) as [->|Hc]; [|now apply Hplain].
  destruct (keyword_at is_word s') as [k|] eqn:Ek; [|now apply Hplain].
  injection H as <- <-. destruct (keyword_at_some _ _ Ek) as [Hin [rest ->]].
  split; [assumption|]. exists (waw :: k), rest. auto.
Qed.

(** Putting a space in front of each matched keyword does not change the
    words of a text made of word characters and white space. *)
Lemma sub_space_same_words n : forall s prev,
  length s <= n ->
  forallb (fun c => is_word c || Py.isspace c) s = true ->
  (forall c, prev = Some c -> is_word c || Py.isspace c = true) ->
  Py.split (Re.sub_from (chain_pattern is_word) (fun g => space :: g) prev 0 s)
  = Py.split (Re.sub_from (chain_pattern is_word) (fun g => g) prev 0 s)
  /\ (after_nonspace prev = true ->
      Py.at_word_end (Re.sub_from (chain_pattern is_word) (fun g => space :: g) prev 0 s)
      = Py.at_word_end (Re.sub_from (chain_pattern is_word) (fun g => g) prev 0 s)).
Proof.
  induction n as [|n IH]; intros s prev Hlen Hs Hprev.
  - destruct s; [now split | simpl in Hlen; lia].
  - destruct s as [|c s]; [now split|]. simpl in Hlen.
    assert (Hs0 := Hs). cbn [forallb] in Hs. apply andb_true_iff in Hs.
    destruct Hs as [Hc Hs].
    assert (Hcopy :
              Py.split (c :: Re.sub_from (chain_pattern is_word)
                                         (fun g => space :: g) (Some c) 0 s)
              = Py.split (c :: Re.sub_from (chain_pattern is_word)
                                           (fun g => g) (Some c) 0 s)
              /\ (after_nonspace prev = true ->
                  Py.at_word_end (c :: Re.sub_from (chain_pattern is_word)
                                         (fun g => space :: g) (Some c) 0 s)
                  = Py.at_word_end (c :: Re.sub_from (chain_pattern is_word)
                                           (fun g => g) (Some c) 0 s))).
    { destruct (IH s (Some c)) as [IH1 IH2];
        [lia | assumption | now intros ? [= <-] |].
      split; [|reflexivity]. rewrite !split_cons, IH1.
      destruct (Py.isspace c) eqn:Ec; [reflexivity|].
      now rewrite IH2 by (cbn; now rewrite Ec). }
    rewrite !sub_from_cons.
    destruct (chain_pattern is_word prev (c :: s)) as [[[|m] g]|] eqn:E;
      [exact Hcopy | | exact Hcopy].
    destruct (chain_pattern_some _ _ _ _ E)
      as (Hb & Hin & span & rest & Hspan & Hm & Hg).
    destruct (keyword_shape g Hin) as (Hne & Hhd & Hlast & Hlsp & _).
    assert (Hspan_ne : span <> [])
      by (destruct Hg as [->| ->]; [assumption | discriminate]).
    assert (Hspan_last : last span space = last g space).
    { destruct Hg as [->| ->]; [reflexivity|].
      destruct g; [congruence | reflexivity]. }
    assert (Hrest : skipn m s = rest).
    { change (skipn m s) with (skipn (S m) (c :: s)).
      now rewrite Hspan, Hm, skipn_length_app. }
    assert (Hprev' : prev_after (Some c) (firstn m s) = Some (last g space)).
    { change (prev_after (Some c) (firstn m s))
        with (prev_after prev (firstn (S m) (c :: s))).
      rewrite Hspan, Hm, firstn_length_app.
      now rewrite (prev_after_last prev span space Hspan_ne), Hspan_last. }
    rewrite Hrest, Hprev'.
    destruct (IH rest (Some (last g space))) as [IH1 IH2].
    { apply (f_equal (@length char)) in Hspan. rewrite length_app in Hspan.
      simpl in Hspan. destruct span; [congruence|]. simpl in Hspan. lia. }
    { rewrite Hspan in Hs0. rewrite forallb_app in Hs0.
      now apply andb_true_iff in Hs0. }
    { intros ? [= <-]. now rewrite Hlast. }
    specialize (IH2 ltac:(cbn; now rewrite Hlsp)).
    destruct (same_words_app g _ _ IH1 IH2) as [Hsw _].
    split.
    + cbn [app]. rewrite split_cons.
      change (Py.isspace space) with true. cbv iota. exact Hsw.
    + intros Hafter. exfalso.
      destruct prev as [p0|]; [|discriminate]. cbn in Hafter.
      apply negb_true_iff in Hafter.
      specialize (Hprev p0 eq_refl). rewrite Hafter, orb_false_r in Hprev.
      assert (Hfirst : is_word c = true).
      { destruct Hg as [->| ->].
        - destruct g as [|x g']; [congruence|]. injection Hspan as -> _.
          exact Hhd.
        - injection Hspan as -> _. apply keyword_letter_word. now left. }
      unfold Re.word_boundary in Hb. cbn in Hb.
      rewrite Hprev, Hfirst in Hb. discriminate.
Qed.

End Marking.

(** Every keyword starts and ends with a character that is not white
    space, and holds no marker. *)
Lemma keyword_chars g :
  In g chain_keywords ->
  g <> []
  /\ Py.isspace (hd space g) = false
  /\ Py.isspace (last g space) = false
  /\ Forall (fun c => negb (c =? tilde)%N = true) g.
Proof.
  intros Hin.
  assert (Hall : forallb
                   (fun k => negb (isnil k)
                             && negb (Py.isspace (hd space k))
                             && negb (Py.isspace (last k space))
                             && forallb (fun c => negb (c =? tilde)%N) k)
                   chain_keywords = true) by (vm_compute; reflexivity).
  rewrite forallb_forall in Hall. specialize (Hall g Hin).
  repeat (apply andb_true_iff in Hall; destruct Hall as [Hall ?]).
  split; [destruct g; [discriminate | discriminate]|].
  split; [now apply negb_true_iff|]. split; [now apply negb_true_iff|].
  apply Forall_forall, forallb_forall. assumption.
Qed.

Lemma chain_match_positive is_word prev s g :
  chain_pattern is_word prev s <> Some (0, g).
Proof.
  intros E.
  destruct (chain_pattern_some _ _ _ _ _ E) as (_ & Hin & span & rest & _ & Hm & Hg).
  destruct (keyword_chars g Hin) as (Hne & _).
  destruct Hg as [->| ->]; [destruct g; [congruence | discriminate] | discriminate].
Qed.

(** One match of the scan: the text is the span and the rest, the scan goes
    on with the rest, behind the last letter of the keyword. *)
Lemma chain_match_step is_word prev c s m g :
  chain_pattern is_word prev (c :: s) = Some (S m, g) ->
  In g chain_keywords
  /\ exists span rest,
       c :: s = span ++ rest /\ S m = length span /\ (span = g \/ span = waw :: g)
       /\ skipn m s = rest
       /\ prev_after (Some c) (firstn m s) = Some (last g space)
       /\ length rest <= length s.
Proof.
  intros E.
  destruct (chain_pattern_some _ _ _ _ _ E)
    as (_ & Hin & span & rest & Hspan & Hm & Hg).
  destruct (keyword_chars g Hin) as (Hne & _).
  assert (Hspan_ne : span <> [])
    by (destruct Hg as [->| ->]; [assumption | discriminate]).
  assert (Hspan_last : last span space = last g space).
  { destruct Hg as [->| ->]; [reflexivity|].
    destruct g; [congruence | reflexivity]. }
  split; [assumption|]. exists span, rest.
  split; [assumption|]. split; [assumption|]. split; [assumption|].
  split.
  { change (skipn m s) with (skipn (S m) (c :: s)).
    now rewrite Hspan, Hm, skipn_length_app. }
  split.
  { change (prev_after (Some c) (firstn m s))
      with (prev_after prev (firstn (S m) (c :: s))).
    rewrite Hspan, Hm, firstn_length_app.
    now rewrite (prev_after_last prev span space Hspan_ne), Hspan_last. }
  apply (f_equal (@length char)) in Hspan. rewrite length_app in Hspan.
  simpl in Hspan. lia.
Qed.

Lemma matches_after_space_skip p k : forall s prev,
  matches_after_space p prev k s =
  matches_after_space p (prev_after prev (firstn k s)) 0 (skipn k s).
Proof.
  induction k as [|k IH]; intros s prev; [reflexivity|].
  destruct s as [|c s]; [reflexivity|]. simpl. apply IH.
Qed.

Lemma matches_after_space_cons p prev c s :
  matches_after_space p prev 0 (c :: s) =
  match p prev (c :: s) with
  | Some (S n, _) =>
      negb (after_nonspace prev)
      && matches_after_space p (prev_after (Some c) (firstn n s)) 0 (skipn n s)
  | _ => matches_after_space p (Some c) 0 s
  end.
Proof.
  simpl. destruct (p prev (c :: s)) as [[[|n] g]|]; try reflexivity.
  now rewrite matches_after_space_skip.
Qed.

Lemma app_last_cons {A : Type} (g : list A) d x :
  g <> [] -> g ++ x = removelast g ++ last g d :: x.
Proof.
  intros H. rewrite (app_removelast_last d H) at 1. now rewrite <- app_assoc.
Qed.

Lemma at_word_end_keyword g x :
  In g chain_keywords -> Py.at_word_end (g ++ x) = false.
Proof.
  intros Hin. destruct (keyword_chars g Hin) as (Hne & Hhd & _).
  destruct g; [congruence | exact Hhd].
Qed.

(** The number of words of a text, one character at a time. *)
Lemma count_cons c x :
  length (Py.split (c :: x)) =
  length (Py.split x) + (if negb (Py.isspace c) && Py.at_word_end x then 1 else 0).
Proof.
  rewrite split_cons. destruct (Py.isspace c); cbn [negb andb]; [lia|].
  destruct (Py.at_word_end x) eqn:E; cbn [length]; [lia|].
  pose proof (split_nonempty x E). destruct (Py.split x); [congruence|].
  cbn [Py.cons_word length]. lia.
Qed.

Lemma count_with_prev_cons prev c x :
  length (Py.split (with_prev prev (c :: x))) =
  length (Py.split (with_prev (Some c) x))
  + (if after_nonspace prev && Py.isspace c then 1 else 0).
Proof.
  assert (H : length (Py.split (c :: x)) = length (Py.split (with_prev (Some c) x))).
  { cbn [with_prev]. destruct (Py.isspace c) eqn:Ec; [|reflexivity].
    now rewrite split_cons, Ec. }
  destruct prev as [d|]; unfold with_prev at 1; cbn [after_nonspace];
    [|rewrite H; cbn [andb]; lia].
  destruct (Py.isspace d) eqn:Ed; cbn [negb andb]; [rewrite H; lia|].
  rewrite count_cons, Ed, H. cbn [negb andb Py.at_word_end].
  destruct (Py.isspace c); lia.
Qed.

Lemma count_app g : forall y1 y2,
  Py.at_word_end y1 = Py.at_word_end y2 ->
  length (Py.split (g ++ y1)) + length (Py.split y2)
  = length (Py.split (g ++ y2)) + length (Py.split y1).
Proof.
  induction g as [|c g IH]; intros y1 y2 He; [cbn [app]; lia|].
  cbn [app]. rewrite !count_cons.
  assert (Hend : Py.at_word_end (g ++ y1) = Py.at_word_end (g ++ y2))
    by (destruct g; [exact He | reflexivity]).
  rewrite Hend. specialize (IH y1 y2 He). lia.
Qed.

Lemma In_split c : forall s,
  In c s -> Py.isspace c = false -> exists w, In w (Py.split s) /\ In c w.
Proof.
  induction s as [|d s IH]; intros Hin Hc; [destruct Hin|].
  rewrite split_cons. destruct Hin as [->|Hin].
  - rewrite Hc. destruct (Py.at_word_end s) eqn:E.
    + exists [c]. split; now left.
    + pose proof (split_nonempty s E). destruct (Py.split s) as [|w r]; [congruence|].
      exists (c :: w). split; now left.
  - destruct (IH Hin Hc) as (w & Hw & Hcw).
    destruct (Py.isspace d); [eauto|].
    destruct (Py.at_word_end s); [exists w; split; [now right | assumption]|].
    destruct (Py.split s) as [|w0 r]; [destruct Hw|]. cbn [Py.cons_word].
    destruct Hw as [->|Hw].
    + exists (d :: w). split; [now left | now right].
    + exists w. split; [now right | assumption].
Qed.

Lemma In_join c w sep : forall ws,
  In w ws -> In c w -> In c (Py.join sep ws).
Proof.
  induction ws as [|v ws IH]; intros Hin Hc; [destruct Hin|].
  destruct ws as [|u ws].
  - destruct Hin as [->|[]]. exact Hc.
  - rewrite join_cons by discriminate. apply in_or_app.
    destruct Hin as [->|Hin]; [now left|].
    right. apply in_or_app. right. now apply IH.
Qed.

Lemma In_collapse_ws c s :
  In c s -> Py.isspace c = false -> In c (collapse_ws s).
Proof.
  intros Hin Hc. rewrite collapse_ws_words.
  destruct (In_split c s Hin Hc) as (w & Hw & Hcw). now apply (In_join c w).
Qed.

Lemma split_collapse_ws s : Py.split (collapse_ws s) = Py.split s.
Proof. rewrite collapse_ws_words. apply split_join, split_tokens. Qed.

Section Roundtrip.
Variable is_word : char -> bool.

(** The substitution is what the reading of the scan says. *)
Lemma sub_scanned_as out n : forall s prev,
  length s <= n ->
  scanned_as is_word out prev s (Re.sub_from (chain_pattern is_word) out prev 0 s).
Proof.
  induction n as [|n IH]; intros s prev Hlen.
  - destruct s; [constructor | simpl in Hlen; lia].
  - destruct s as [|c s]; [constructor|]. simpl in Hlen.
    rewrite sub_from_cons.
    destruct (chain_pattern is_word prev (c :: s)) as [[[|m] g]|] eqn:E.
    + now apply chain_match_positive in E.
    + destruct (chain_match_step _ _ _ _ _ _ E)
        as (Hin & span & rest & Hspan & Hm & Hg & Hrest & Hprev & Hle).
      rewrite Hrest, Hprev. rewrite Hspan, Hm in E. rewrite Hspan.
      apply scanned_span; [assumption | assumption | assumption|].
      apply IH. lia.
    + apply scanned_char; [assumption|]. apply IH. lia.
Qed.

(** The reading determines the result. *)
Lemma scanned_as_sub out prev s x :
  scanned_as is_word out prev s x ->
  x = Re.sub_from (chain_pattern is_word) out prev 0 s.
Proof.
  induction 1 as [prev | prev c s x E _ IH | prev span k rest x Hin Hspan E _ IH].
  - reflexivity.
  - rewrite sub_from_cons, E. now f_equal.
  - destruct span as [|c span].
    { destruct Hspan as [<-|C]; [|discriminate C].
      now destruct (keyword_chars [] Hin) as (Hne & _). }
    cbn [app length] in *. rewrite sub_from_cons, E. f_equal.
    destruct (chain_match_step _ _ _ _ _ _ E) as (_ & _ & _ & _ & _ & _ & _ & Hprev & _).
    now rewrite Hprev, skipn_length_app.
Qed.

(** Putting a space in front of each matched keyword does not change the
    words of a text in which every match starts the text or follows white
    space. *)
Lemma marked_same_words n : forall s prev,
  length s <= n ->
  matches_after_space (chain_pattern is_word) prev 0 s = true ->
  Py.split (Re.sub_from (chain_pattern is_word) (fun g => space :: g) prev 0 s)
  = Py.split (Re.sub_from (chain_pattern is_word) (fun g => g) prev 0 s)
  /\ (after_nonspace prev = true ->
      Py.at_word_end (Re.sub_from (chain_pattern is_word) (fun g => space :: g) prev 0 s)
      = Py.at_word_end (Re.sub_from (chain_pattern is_word) (fun g => g) prev 0 s)).
Proof.
  induction n as [|n IH]; intros s prev Hlen Hs.
  - destruct s; [now split | simpl in Hlen; lia].
  - destruct s as [|c s]; [now split|]. simpl in Hlen.
    assert (Hcopy :
              matches_after_space (chain_pattern is_word) (Some c) 0 s = true ->
              Py.split (c :: Re.sub_from (chain_pattern is_word)
                                         (fun g => space :: g) (Some c) 0 s)
              = Py.split (c :: Re.sub_from (chain_pattern is_word)
                                           (fun g => g) (Some c) 0 s)
              /\ (after_nonspace prev = true ->
                  Py.at_word_end (c :: Re.sub_from (chain_pattern is_word)
                                         (fun g => space :: g) (Some c) 0 s)
                  = Py.at_word_end (c :: Re.sub_from (chain_pattern is_word)
                                           (fun g => g) (Some c) 0 s))).
    { intros Hs'. destruct (IH s (Some c)) as [IH1 IH2]; [lia | assumption|].
      split; [|reflexivity]. rewrite !split_cons, IH1.
      destruct (Py.isspace c) eqn:Ec; [reflexivity|].
      now rewrite IH2 by (cbn; now rewrite Ec). }
    rewrite matches_after_space_cons in Hs. rewrite !sub_from_cons.
    destruct (chain_pattern is_word prev (c :: s)) as [[[|m] g]|] eqn:E;
      [now apply Hcopy | | now apply Hcopy].
    destruct (chain_match_step _ _ _ _ _ _ E)
      as (Hin & span & rest & Hspan & Hm & Hg & Hrest & Hprev & Hle).
    destruct (keyword_chars g Hin) as (Hne & _ & Hlsp & _).
    rewrite Hrest, Hprev in *.
    apply andb_true_iff in Hs. destruct Hs as [Hafter Hs].
    destruct (IH rest (Some (last g space))) as [IH1 IH2]; [lia | assumption|].
    specialize (IH2 ltac:(cbn; now rewrite Hlsp)).
    destruct (same_words_app g _ _ IH1 IH2) as [Hsw _].
    split.
    + cbn [app]. rewrite split_cons.
      change (Py.isspace space) with true. cbv iota. exact Hsw.
    + intros C. rewrite C in Hafter. discriminate.
Qed.

(** Deleting the markers from the substituted text leaves a space in
    front of each matched keyword. *)
Lemma delete_markers s :
  forallb (fun c => negb (c =? tilde)%N) s = true ->
  filter (fun c => negb (c =? tilde)%N)
         (Re.sub (chain_pattern is_word) (fun g => [tilde; space] ++ g) s)
  = Re.sub (chain_pattern is_word) (fun g => space :: g) s.
Proof.
  intros Hs. unfold Re.sub.
  rewrite filter_sub_from by (now apply Forall_forall, forallb_forall).
  apply sub_from_repl_ext. intros prev t n g E.
  destruct (chain_pattern_some _ _ _ _ _ E) as (_ & Hin & _).
  destruct (keyword_chars g Hin) as (_ & _ & _ & Hfree).
  cbn [app filter].
  change (negb (tilde =? tilde)%N) with false.
  change (negb (space =? tilde)%N) with true. cbv iota.
  f_equal. now apply filter_all.
Qed.

Lemma unmark_mark s :
  forallb (fun c => negb (c =? tilde)%N) s = true ->
  unmark (mark_keywords is_word s)
  = collapse_ws (Re.sub (chain_pattern is_word) (fun g => space :: g) s).
Proof.
  intros Hfree. unfold unmark, mark_keywords.
  rewrite collapse_filter_collapse.
  - f_equal. exact (delete_markers s Hfree).
  - intros c Hc. apply negb_true_iff, N.eqb_neq. intros ->. discriminate.
Qed.

(** The space put in front of a matched keyword starts a new word exactly
    when the match follows a character that is not white space: counted
    with the word that the character before the position belongs to, the
    substituted text has at least as many words as the text with the
    keywords alone, and more when some match follows such a character. *)
Lemma marked_word_count n : forall s prev,
  length s <= n ->
  length (Py.split (with_prev prev
            (Re.sub_from (chain_pattern is_word) (fun g => g) prev 0 s)))
  <= length (Py.split (with_prev prev
            (Re.sub_from (chain_pattern is_word) (fun g => space :: g) prev 0 s)))
  /\ (matches_after_space (chain_pattern is_word) prev 0 s = false ->
      length (Py.split (with_prev prev
                (Re.sub_from (chain_pattern is_word) (fun g => g) prev 0 s)))
      < length (Py.split (with_prev prev
                (Re.sub_from (chain_pattern is_word) (fun g => space :: g) prev 0 s)))).
Proof.
  induction n as [|n IH]; intros s prev Hlen.
  - destruct s; [|simpl in Hlen; lia]. split; [cbn [Re.sub_from]; lia | discriminate].
  - destruct s as [|c s]; [split; [cbn [Re.sub_from]; lia | discriminate]|].
    simpl in Hlen.
    assert (Hcopy :
      length (Py.split (with_prev prev
                (c :: Re.sub_from (chain_pattern is_word) (fun g => g) (Some c) 0 s)))
      <= length (Py.split (with_prev prev
                (c :: Re.sub_from (chain_pattern is_word)
                                  (fun g => space :: g) (Some c) 0 s)))
      /\ (matches_after_space (chain_pattern is_word) (Some c) 0 s = false ->
          length (Py.split (with_prev prev
                    (c :: Re.sub_from (chain_pattern is_word) (fun g => g) (Some c) 0 s)))
          < length (Py.split (with_prev prev
                    (c :: Re.sub_from (chain_pattern is_word)
                                      (fun g => space :: g) (Some c) 0 s))))).
    { rewrite !count_with_prev_cons.
      destruct (IH s (Some c) ltac:(lia)) as [IH1 IH2].
      split; [lia | intros H; specialize (IH2 H); lia]. }
    rewrite matches_after_space_cons, !sub_from_cons.
    destruct (chain_pattern is_word prev (c :: s)) as [[[|m] g]|] eqn:E;
      [exact Hcopy | | exact Hcopy].
    destruct (chain_match_step _ _ _ _ _ _ E)
      as (Hin & span & rest & Hspan & Hm & Hg & Hrest & Hprev & Hle).
    destruct (keyword_chars g Hin) as (Hne & _ & Hlsp & _).
    rewrite Hrest, Hprev.
    destruct (IH rest (Some (last g space)) ltac:(lia)) as [IH1 IH2].
    cbn [with_prev] in IH1, IH2. rewrite Hlsp in IH1, IH2.
    set (E1 := Re.sub_from (chain_pattern is_word) (fun g => space :: g)
                           (Some (last g space)) 0 rest) in *.
    set (E2 := Re.sub_from (chain_pattern is_word) (fun g => g)
                           (Some (last g space)) 0 rest) in *.
    pose proof (count_app (removelast g) (last g space :: E1) (last g space :: E2)
                          eq_refl) as Hc.
    rewrite <- !(app_last_cons g space _ Hne) in Hc.
    assert (H1 : length (Py.split (with_prev prev (space :: g ++ E1)))
                 = length (Py.split (g ++ E1))
                   + (if after_nonspace prev then 1 else 0)).
    { destruct prev as [d|]; cbn [with_prev after_nonspace].
      - destruct (Py.isspace d) eqn:Ed; cbn [negb].
        + rewrite split_cons. change (Py.isspace space) with true. cbv iota. lia.
        + rewrite count_cons, Ed. cbn [negb andb Py.at_word_end].
          change (Py.isspace space) with true. cbv iota.
          rewrite split_cons. change (Py.isspace space) with true. cbv iota. lia.
      - rewrite split_cons. change (Py.isspace space) with true. cbv iota. lia. }
    assert (H2 : length (Py.split (with_prev prev (g ++ E2)))
                 = length (Py.split (g ++ E2))).
    { destruct prev as [d|]; cbn [with_prev]; [|reflexivity].
      destruct (Py.isspace d) eqn:Ed; [reflexivity|].
      rewrite count_cons, (at_word_end_keyword g E2 Hin), andb_false_r. lia. }
    cbn [app]. change (space :: g ++ E1) with (space :: (g ++ E1)).
    rewrite H1, H2. split; [lia|].
    intros Hbad. apply andb_false_iff in Hbad. destruct Hbad as [Hbad|Hbad].
    + apply negb_false_iff in Hbad. rewrite Hbad. lia.
    + specialize (IH2 Hbad). lia.
Qed.

(** A marker of the text is no part of a match: it stays. *)
Lemma keywords_only_keeps_marker n : forall s prev,
  length s <= n -> In tilde s ->
  In tilde (Re.sub_from (chain_pattern is_word) (fun g => g) prev 0 s).
Proof.
  induction n as [|n IH]; intros s prev Hlen Hin.
  - destruct s; [destruct Hin | simpl in Hlen; lia].
  - destruct s as [|c s]; [destruct Hin|]. simpl in Hlen.
    assert (Hcopy : In tilde (c :: Re.sub_from (chain_pattern is_word)
                                               (fun g => g) (Some c) 0 s)).
    { destruct Hin as [->|Hin]; [now left | right; apply IH; [lia | assumption]]. }
    rewrite sub_from_cons.
    destruct (chain_pattern is_word prev (c :: s)) as [[[|m] g]|] eqn:E;
      [exact Hcopy | | exact Hcopy].
    destruct (chain_match_step _ _ _ _ _ _ E)
      as (Hg_in & span & rest & Hspan & Hm & Hg & Hrest & Hprev & Hle).
    destruct (keyword_chars g Hg_in) as (_ & _ & _ & Hfree).
    rewrite Hrest, Hprev. apply in_or_app. right. apply IH; [lia|].
    rewrite Hspan in Hin. apply in_app_or in Hin. destruct Hin as [Hin|Hin];
      [|assumption].
    exfalso.
    assert (Hg' : In tilde g).
    { destruct Hg as [->| ->]; [assumption|].
      destruct Hin as [C|Hin]; [discriminate C | assumption]. }
    rewrite Forall_forall in Hfree. specialize (Hfree tilde Hg'). discriminate.
Qed.

Lemma unmark_no_marker x : ~ In tilde (unmark x).
Proof.
  assert (H : Forall (fun c => c <> tilde) (unmark x)).
  { unfold unmark, collapse_ws, Re.sub. apply Forall_strip_by.
    apply Forall_sub_from; [intros; repeat constructor; discriminate|].
    apply Forall_forall. intros c Hc. apply filter_In in Hc.
    destruct Hc as [_ Hc]. apply negb_true_iff in Hc. now apply N.eqb_neq. }
  rewrite Forall_forall in H. intros C. now apply (H tilde C).
Qed.

(** The round trip, exactly: deleting the markers gives the text with the
    keywords alone, up to white space, when and only when the text holds
    no marker and every match starts the text or follows white space. *)
Lemma roundtrip_iff s :
  unmark (mark_keywords is_word s) = collapse_ws (keywords_only is_word s)
  <-> forallb (fun c => negb (c =? tilde)%N) s = true
      /\ matches_after_space (chain_pattern is_word) None 0 s = true.
Proof.
  split.
  - intros Heq.
    assert (Hfree : forallb (fun c => negb (c =? tilde)%N) s = true).
    { apply forallb_forall. intros c Hc. apply negb_true_iff, N.eqb_neq.
      intros ->. apply (unmark_no_marker (mark_keywords is_word s)).
      rewrite Heq. apply In_collapse_ws; [|reflexivity].
      now apply (keywords_only_keeps_marker _ s None (le_n _)). }
    split; [assumption|].
    destruct (matches_after_space (chain_pattern is_word) None 0 s) eqn:Em;
      [reflexivity|].
    exfalso. rewrite (unmark_mark s Hfree) in Heq.
    apply (f_equal Py.split) in Heq. rewrite !split_collapse_ws in Heq.
    destruct (marked_word_count _ s None (le_n _)) as [_ Hlt].
    specialize (Hlt Em). cbn [with_prev] in Hlt.
    unfold keywords_only, Re.sub in Heq. rewrite Heq in Hlt. lia.
  - intros [Hfree Hm]. rewrite (unmark_mark s Hfree).
    rewrite !collapse_ws_words. f_equal. unfold keywords_only, Re.sub.
    now apply (marked_same_words _ s None (le_n _)).
Qed.

End Roundtrip.

(** C5, as stated, fails on the code: the replacement is the marker, a
    space and group 1, and group 1 is the keyword without the و in front
    of it.  وقال زيد is marked as ~ قال زيد; without the marker this is
    قال زيد: the و is gone. *)
Lemma marker_roundtrip_counterexample :
  remove_diacritics (normalize text_waw_qala) = text_waw_qala
  /\ mark_keywords latin_arabic_word text_waw_qala = [tilde; space] ++ text_qala
  /\ unmark (mark_keywords latin_arabic_word text_waw_qala) = text_qala
  /\ unmark (mark_keywords latin_arabic_word text_waw_qala) <> text_waw_qala.
Proof.
  split; [vm_compute; reflexivity|]. split; [vm_compute; reflexivity|].
  split; [vm_compute; reflexivity|]. vm_compute. discriminate.
Qed.

(** C5, amended.  For every table of word characters and every text: the
    marked text is the white-space collapse of the one text in which, read
    left to right, each matched span, a keyword with or without و attached
    in front of it, is replaced by a marker, a space and the keyword alone,
    and every other character is kept; so a marker stands directly before
    each matched keyword, and a و attached to it is dropped.  Deleting
    every marker from the marked text and collapsing white space gives the
    white-space collapse of the text with each matched span reduced to its
    keyword exactly when the text holds no marker and every match starts
    the text or follows white space; for such a text in which no match has
    a و attached, the white-space collapse of the text itself comes
    back. *)
Theorem marker_roundtrip_up_to_waw :
  forall is_word s,
    (exists x,
        scanned_as is_word (fun k => [tilde; space] ++ k) None s x
        /\ (forall y, scanned_as is_word (fun k => [tilde; space] ++ k) None s y ->
                      y = x)
        /\ mark_keywords is_word s = collapse_ws x)
    /\ scanned_as is_word (fun k => k) None s (keywords_only is_word s)
    /\ (unmark (mark_keywords is_word s) = collapse_ws (keywords_only is_word s)
        <-> forallb (fun c => negb (c =? tilde)%N) s = true
            /\ matches_after_space (chain_pattern is_word) None 0 s = true)
    /\ (forallb (fun c => negb (c =? tilde)%N) s = true ->
        matches_after_space (chain_pattern is_word) None 0 s = true ->
        keywords_only is_word s = s ->
        unmark (mark_keywords is_word s) = collapse_ws s).
Proof.
  intros is_word s. split; [|split; [|split]].
  - exists (Re.sub (chain_pattern is_word) (fun k => [tilde; space] ++ k) s).
    split; [apply (sub_scanned_as is_word _ _ s None (le_n _))|].
    split; [|reflexivity]. intros y Hy. exact (scanned_as_sub is_word _ _ _ _ Hy).
  - apply (sub_scanned_as is_word _ _ s None (le_n _)).
  - apply roundtrip_iff.
  - intros Hfree Hm E.
    rewrite (proj2 (roundtrip_iff is_word s) (conj Hfree Hm)). now rewrite E.
Qed.

Lemma marker_roundtrip_up_to_waw_witness :
  forallb (fun c => negb (c =? tilde)%N) text_semicolon = true
  /\ matches_after_space (chain_pattern latin_arabic_word) None 0 text_semicolon = true
  /\ mark_keywords latin_arabic_word text_semicolon = text_semicolon_marked
  /\ keywords_only latin_arabic_word text_semicolon = text_semicolon_keywords_only
  /\ unmark (mark_keywords latin_arabic_word text_semicolon)
     = collapse_ws (keywords_only latin_arabic_word text_semicolon).
Proof.
  assert (H1 : forallb (fun c => negb (c =? tilde)%N) text_semicolon = true)
    by (vm_compute; reflexivity).
  assert (H2 : matches_after_space (chain_pattern latin_arabic_word) None 0
                                   text_semicolon = true)
    by (vm_compute; reflexivity).
  split; [exact H1|]. split; [exact H2|].
  split; [vm_compute; reflexivity|]. split; [vm_compute; reflexivity|].
  exact (proj2 (proj1 (proj2 (proj2 (marker_roundtrip_up_to_waw
                                       latin_arabic_word text_semicolon))))
               (conj H1 H2)).
Defined.

(** The two conditions, on examples.  A keyword that follows a character
    that is not white space, here a parenthesis, gets a space in front of
    it that no collapse removes; a marker already in the text is deleted
    with the inserted ones. *)
Remark marker_after_punctuation :
  keywords_only latin_arabic_word text_qala_parens = text_qala_parens
  /\ unmark (mark_keywords latin_arabic_word text_qala_parens)
     = [0x28; 0x20; 0x642; 0x627; 0x644; 0x29]%N.
Proof. split; vm_compute; reflexivity. Qed.

Remark marker_in_text :
  keywords_only latin_arabic_word [0x61; tilde; 0x62]%N = [0x61; tilde; 0x62]%N
  /\ unmark (mark_keywords latin_arabic_word [0x61; tilde; 0x62]%N) = [0x61; 0x62]%N.
Proof. split; vm_compute; reflexivity. Qed.

(** ** The whole pipeline on an example *)

(** A chain, then a segment that names the Prophet: the chain is everything
    before that segment, the body that segment and what follows. *)
Example segment_prophet_mention :
  segment latin_arabic_word text_prophet
  = Py.Ok (text_haddathana_zayd, text_an_alnabi).
Proof. vm_compute; reflexivity. Qed.

(** A short text without keywords is all body. *)
Example segment_no_keyword :
  segment latin_arabic_word [0x632; 0x64A; 0x62F]%N
  = Py.Ok ([], [0x632; 0x64A; 0x62F]%N).
Proof. vm_compute; reflexivity. Qed.

(** * Further properties of the code *)

(** ** [remove_diacritics] *)

Lemma filter_idem {A : Type} (f : A -> bool) l : filter f (filter f l) = filter f l.
Proof.
  induction l as [|x l IH]; [reflexivity|]. simpl.
  destruct (f x) eqn:E; [|exact IH]. simpl. now rewrite E, IH.
Qed.

(** X1.  [remove_diacritics] deletes exactly the characters of the class
    [arabic_diacritics] and keeps every other character in place: nothing
    of the class is left, a second pass changes nothing, and a text without
    such characters comes back unchanged. *)
Theorem remove_diacritics_deletes_class :
  forall text,
    remove_diacritics text = filter (fun c => negb (arabic_diacritics c)) text
    /\ Forall (fun c => arabic_diacritics c = false) (remove_diacritics text)
    /\ remove_diacritics (remove_diacritics text) = remove_diacritics text
    /\ (forallb (fun c => negb (arabic_diacritics c)) text = true ->
        remove_diacritics text = text).
Proof.
  intros text. unfold remove_diacritics. rewrite !sub_char_class_delete.
  split; [reflexivity|]. split; [|split].
  - apply Forall_forall. intros c Hc. apply filter_In in Hc.
    now apply negb_true_iff.
  - apply filter_idem.
  - intros H. apply filter_all. now apply Forall_forall, forallb_forall.
Qed.

Lemma remove_diacritics_deletes_class_witness :
  forallb (fun c => negb (arabic_diacritics c)) text_prophet = true
  /\ remove_diacritics text_prophet = text_prophet.
Proof.
  assert (H : forallb (fun c => negb (arabic_diacritics c)) text_prophet = true)
    by (vm_compute; reflexivity).
  split; [exact H|].
  exact (proj2 (proj2 (proj2 (remove_diacritics_deletes_class text_prophet))) H).
Defined.

(** ** [word_count] *)

Lemma split_all_space s :
  forallb Py.isspace s = true -> Py.split s = [].
Proof.
  induction s as [|c s IH]; [reflexivity|]. cbn [forallb]. intros H.
  apply andb_true_iff in H. destruct H as [Hc Hs].
  rewrite split_cons, Hc. now apply IH.
Qed.

(** X2.  [word_count] counts the maximal runs of characters that are not
    white space: it adds up over a white-space character, it is not changed
    by trimming or by collapsing white space, and a text of white space
    only has no word. *)
Theorem word_count_white_space :
  forall a b c s,
    Py.isspace c = true ->
    word_count (a ++ c :: b) = word_count a + word_count b
    /\ word_count (Py.strip s) = word_count s
    /\ word_count (collapse_ws s) = word_count s
    /\ (forallb Py.isspace s = true -> word_count s = 0).
Proof.
  intros a b c s Hc. unfold word_count. split; [|split; [|split]].
  - now rewrite split_app_space, length_app.
  - now rewrite split_strip.
  - rewrite collapse_ws_words. now rewrite split_join by apply split_tokens.
  - intros H. now rewrite split_all_space.
Qed.

Lemma word_count_white_space_witness :
  Py.isspace 0x0A%N = true
  /\ word_count (text_qala ++ 0x0A%N :: text_zayd_kadha)
     = word_count text_qala + word_count text_zayd_kadha.
Proof.
  assert (H : Py.isspace 0x0A%N = true) by (vm_compute; reflexivity).
  split; [exact H|].
  exact (proj1 (word_count_white_space text_qala text_zayd_kadha 0x0A%N [] H)).
Defined.

(** ** The characters of the normalised text *)

Lemma In_join_space c ws :
  In c (Py.join [space] ws) -> c = space \/ exists w, In w ws /\ In c w.
Proof.
  induction ws as [|w ws IH]; [intros []|].
  destruct ws as [|v ws].
  - simpl. intros H. right. exists w. split; [now left | assumption].
  - rewrite join_cons by discriminate. intros H.
    apply in_app_or in H. destruct H as [H|H].
    + right. exists w. split; [now left | assumption].
    + apply in_app_or in H. destruct H as [[<-|[]]|H]; [now left|].
      destruct (IH H) as [->|(x & Hx & Hc)]; [now left|].
      right. exists x. split; [now right | assumption].
Qed.

Lemma normalize_from_text text :
  Forall (fun c => c = space \/ In c text) (normalize text).
Proof.
  unfold normalize. destruct (isnil text).
  - apply Forall_forall. intros c Hc. now right.
  - unfold collapse_ws, replace, Re.sub at 1 2 3. apply Forall_strip_by.
    apply Forall_sub_from; [intros; repeat constructor; now left|].
    apply Forall_sub_from; [intros; constructor|].
    apply Forall_sub_from; [intros; constructor|].
    rewrite sub_char_class_delete. apply Forall_forall.
    intros c Hc. apply filter_In in Hc. right. apply Hc.
Qed.

(** X3.  Every character of the normalised Arabic text is a character of
    the input or a space; none is one of the nine punctuation characters
    of the class; and the only white-space character left is the space. *)
Theorem normalized_text_characters :
  forall text,
    Forall (fun c => punctuation c = false
                     /\ (Py.isspace c = true -> c = space)
                     /\ (c = space \/ In c text))
           (normalize text).
Proof.
  intros text. apply Forall_forall. intros c Hc.
  split; [|split].
  - pose proof (normalize_no_punctuation text) as H.
    rewrite Forall_forall in H. now apply H.
  - intros Hsp. rewrite normalize_words in Hc.
    destruct (In_join_space _ _ Hc) as [->|(w & Hw & Hcw)]; [reflexivity|].
    pose proof (split_tokens (normalize text)) as Ht.
    rewrite Forall_forall in Ht. destruct (Ht w Hw) as [_ Hall].
    rewrite Forall_forall in Hall. rewrite (Hall c Hcw) in Hsp. discriminate.
  - pose proof (normalize_from_text text) as H.
    rewrite Forall_forall in H. now apply H.
Qed.

(** ** Blank input *)

(** X4.  A text made only of white space and of punctuation of the removed
    class normalises to the empty text, and the split returns the empty
    chain and the empty body. *)
Theorem blank_text_splits_empty :
  forall is_word text,
    forallb (fun c => Py.isspace c || punctuation c) text = true ->
    normalize text = [] /\ segment is_word text = Py.Ok ([], []).
Proof.
  intros is_word text H.
  assert (Hn : normalize text = []).
  { unfold normalize. destruct (isnil text) eqn:E.
    - destruct text; [reflexivity | discriminate].
    - rewrite collapse_ws_words, split_all_space; [reflexivity|].
      apply forallb_forall. apply Forall_forall.
      unfold replace, Re.sub.
      apply Forall_sub_from; [intros; constructor|].
      apply Forall_sub_from; [intros; constructor|].
      fold (Re.sub (Re.char_class punctuation) (fun _ => []) text).
      rewrite sub_char_class_delete. apply Forall_forall.
      intros c Hc. apply filter_In in Hc. destruct Hc as [Hin Hp].
      rewrite forallb_forall in H. specialize (H c Hin).
      apply negb_true_iff in Hp. now rewrite Hp, orb_false_r in H. }
  split; [exact Hn|]. unfold segment. rewrite Hn. reflexivity.
Qed.

Lemma blank_text_splits_empty_witness :
  forallb (fun c => Py.isspace c || punctuation c) text_blank = true
  /\ segment latin_arabic_word text_blank = Py.Ok ([], []).
Proof.
  assert (H : forallb (fun c => Py.isspace c || punctuation c) text_blank = true)
    by (vm_compute; reflexivity).
  split; [exact H|].
  exact (proj2 (blank_text_splits_empty latin_arabic_word text_blank H)).
Defined.

(** ** Segments and the body candidate *)

Lemma Forall_not_In (d : str) :
  Forall (fun c => c <> tilde) d -> ~ In tilde d.
Proof. intros H Hin. rewrite Forall_forall in H. now apply (H tilde Hin). Qed.

Lemma trimmed_word_count d : trimmed d -> 0 < word_count d.
Proof.
  intros (Hne & Hl & _). unfold word_count.
  destruct d as [|c d]; [congruence|].
  assert (Hc : Py.isspace c = false)
    by (apply (lstrip_by_hd Py.isspace (c :: d)); now rewrite Hl).
  pose proof (split_nonempty (c :: d) Hc) as H.
  destruct (Py.split (c :: d)); [congruence | simpl; lia].
Qed.

(** X5.  Every segment of the marked text is non-empty, has no white space
    at either end, contains no marker and has at least one word. *)
Theorem segments_trimmed_marker_free :
  forall text_marked,
    Forall (fun d => d <> [] /\ Py.strip d = d /\ ~ In tilde d /\ 0 < word_count d)
           (chain_delims_of text_marked).
Proof.
  intros text_marked. eapply Forall_impl; [|apply chain_delims_shape].
  intros d [Ht Hf]. split; [apply Ht|]. split; [now apply strip_trimmed|].
  split; [now apply Forall_not_In | now apply trimmed_word_count].
Qed.

Lemma skipn_last {A : Type} (l : list A) d :
  l <> [] -> skipn (length l - 1) l = [last l d].
Proof.
  induction l as [|x l IH]; [congruence|]. intros _.
  destruct l as [|y l]; [reflexivity|].
  change (last (x :: y :: l) d) with (last (y :: l) d).
  rewrite <- IH by discriminate. simpl. now rewrite Nat.sub_0_r.
Qed.

Lemma boundary_index_lt segs : segs <> [] -> boundary_index segs < length segs.
Proof.
  intros Hne. unfold boundary_index.
  destruct (first_match segs) as [j|] eqn:E; [now apply first_match_bound|].
  destruct segs; [congruence | simpl; lia].
Qed.

Lemma body_marked_suffix text_marked :
  body_marked_of text_marked =
  Py.Ok (Py.join [space]
           (skipn (boundary_index (chain_delims_of text_marked))
                  (chain_delims_of text_marked))).
Proof.
  rewrite body_marked_first_match. unfold boundary_index.
  destruct (first_match (chain_delims_of text_marked)); [reflexivity|].
  destruct (chain_delims_of text_marked) as [|d l] eqn:E; [reflexivity|].
  now rewrite (skipn_last (d :: l) []) by discriminate.
Qed.

Lemma In_skipn {A : Type} k (l : list A) x : In x (skipn k l) -> In x l.
Proof.
  revert l. induction k as [|k IH]; intros l H; [assumption|].
  destruct l; [assumption|]. right. now apply IH.
Qed.

(** X6.  The body candidate is always a suffix of the segment list joined
    by single spaces: it starts at the first segment on which a heuristic
    holds, or at the last segment when none does.  So it is never empty
    when there is a segment, it holds no marker and has no white space at
    either end. *)
Theorem body_candidate_is_segment_suffix :
  forall text_marked,
  exists body_marked,
    body_marked_of text_marked = Py.Ok body_marked
    /\ body_marked =
       Py.join [space] (skipn (boundary_index (chain_delims_of text_marked))
                              (chain_delims_of text_marked))
    /\ (chain_delims_of text_marked <> [] ->
        boundary_index (chain_delims_of text_marked)
        < length (chain_delims_of text_marked)
        /\ body_marked <> [])
    /\ ~ In tilde body_marked
    /\ Py.strip body_marked = body_marked.
Proof.
  intros text_marked. eexists. split; [apply body_marked_suffix|].
  split; [reflexivity|].
  pose proof (chain_delims_shape text_marked) as Hshape.
  set (segs := chain_delims_of text_marked) in *.
  assert (Htr : Forall trimmed (skipn (boundary_index segs) segs)).
  { apply Forall_skipn. eapply Forall_impl; [|exact Hshape]. now intros ? []. }
  split; [|split].
  - intros Hne. pose proof (boundary_index_lt segs Hne) as Hlt.
    split; [exact Hlt|].
    apply (trimmed_join _ Htr). now apply skipn_nonempty.
  - intros Hin. destruct (In_join_space _ _ Hin) as [E|(w & Hw & Hc)];
      [discriminate|].
    apply In_skipn in Hw. rewrite Forall_forall in Hshape.
    destruct (Hshape w Hw) as [_ Hfree]. now apply (Forall_not_In w Hfree).
  - destruct (skipn (boundary_index segs) segs) eqn:E; [reflexivity|].
    rewrite <- E in *. apply strip_trimmed, trimmed_join; [assumption|].
    rewrite E. discriminate.
Qed.

(** ** The realignment on its own *)

(** X7.  [apply_split] on any text and any body candidate.  When the
    candidate has a word and fewer words than the text, the body gets as
    many words as the candidate has (the last ones of the text), the chain
    the words before them, and the chain is not empty.  In every other
    case the chain is empty and the body is the text, unchanged. *)
Theorem apply_split_by_word_count :
  forall text body_marked,
    (Py.split body_marked <> [] ->
     length (Py.split body_marked) < length (Py.split text) ->
     Py.split (fst (apply_split text body_marked))
       = firstn (length (Py.split text) - length (Py.split body_marked))
                (Py.split text)
     /\ Py.split (snd (apply_split text body_marked))
        = skipn (length (Py.split text) - length (Py.split body_marked))
                (Py.split text)
     /\ length (Py.split (snd (apply_split text body_marked)))
        = length (Py.split body_marked)
     /\ fst (apply_split text body_marked) <> [])
    /\ (Py.split body_marked = []
        \/ length (Py.split text) <= length (Py.split body_marked) ->
        apply_split text body_marked = ([], text)).
Proof.
  intros text bm. unfold apply_split.
  set (toks := Py.split text). set (btoks := Py.split bm).
  split.
  - intros Hne Hlt.
    assert (Hcond : isnil toks || isnil btoks || (length toks <=? length btoks)
                    = false).
    { destruct toks; [simpl in Hlt; lia|]. destruct btoks; [congruence|].
      cbn [isnil orb]. apply Nat.leb_gt. exact Hlt. }
    rewrite Hcond. cbn [fst snd].
    assert (Ht : Forall token toks) by apply split_tokens.
    rewrite !strip_join_tokens
      by (first [apply Forall_firstn | apply Forall_skipn]; exact Ht).
    rewrite !split_join
      by (first [apply Forall_firstn | apply Forall_skipn]; exact Ht).
    split; [reflexivity|]. split; [reflexivity|].
    split; [rewrite length_skipn; lia|].
    apply join_tokens_nonempty; [now apply Forall_firstn|].
    intros E. apply (f_equal (@length str)) in E.
    rewrite length_firstn in E. simpl in E. lia.
  - intros [H|H].
    + rewrite H. cbn [isnil]. now rewrite orb_true_r.
    + apply Nat.leb_le in H. rewrite H. now rewrite orb_true_r.
Qed.

Lemma apply_split_by_word_count_witness :
  Py.split text_zayd_kadha <> []
  /\ length (Py.split text_zayd_kadha) < length (Py.split text_qala_zayd_kadha)
  /\ length (Py.split (snd (apply_split text_qala_zayd_kadha text_zayd_kadha)))
     = length (Py.split text_zayd_kadha).
Proof.
  assert (H1 : Py.split text_zayd_kadha <> []) by (vm_compute; discriminate).
  assert (H2 : length (Py.split text_zayd_kadha)
               < length (Py.split text_qala_zayd_kadha)).
  { assert (E1 : length (Py.split text_zayd_kadha) = 2) by (vm_compute; reflexivity).
    assert (E2 : length (Py.split text_qala_zayd_kadha) = 3)
      by (vm_compute; reflexivity).
    rewrite E1, E2. lia. }
  split; [exact H1|]. split; [exact H2|].
  exact (proj1 (proj2 (proj2
           (proj1 (apply_split_by_word_count text_qala_zayd_kadha text_zayd_kadha)
                  H1 H2)))).
Defined.

(** ** The English clean-up *)

Lemma squeeze_fix s : adjacent_quotes s = false -> squeeze_quotes s = s.
Proof.
  induction s as [|c s IH]; [reflexivity|]. cbn [adjacent_quotes]. intros H.
  apply orb_false_iff in H. destruct H as [Hc Hs].
  rewrite squeeze_cons, Hc. now rewrite IH.
Qed.

Lemma startswith_quote s : Py.startswith [quote] s = next_is_quote s.
Proof. destruct s as [|c s]; [reflexivity|]. simpl. apply andb_true_r. Qed.

Lemma normalize_en_head s : next_is_quote (normalize_en s) = false.
Proof.
  rewrite normalize_en_squeeze, next_is_quote_squeeze, startswith_quote.
  destruct (next_is_quote s) eqn:E; [|exact E].
  destruct (strip_by_fix (N.eqb quote) s) as [Hl _].
  pose proof (lstrip_by_hd (N.eqb quote) (Py.strip_by (N.eqb quote) s)) as Hhd.
  rewrite Hl in Hhd.
  destruct (Py.strip_by (N.eqb quote) s) as [|c t]; [reflexivity|].
  exact (Hhd c eq_refl).
Qed.

Lemma filter_lstrip_by p s :
  filter (fun c => negb (p c)) (Py.lstrip_by p s) = filter (fun c => negb (p c)) s.
Proof.
  induction s as [|c s IH]; [reflexivity|]. simpl.
  destruct (p c) eqn:E; simpl; [exact IH | now rewrite E].
Qed.

Lemma filter_rstrip_by p s :
  filter (fun c => negb (p c)) (Py.rstrip_by p s) = filter (fun c => negb (p c)) s.
Proof.
  induction s as [|c s IH]; [reflexivity|]. rewrite rstrip_by_cons.
  destruct (Py.rstrip_by p s) as [|d r] eqn:E; cbn [isnil].
  - cbn [filter]. rewrite <- IH. destruct (p c) eqn:Ec; simpl; [reflexivity|].
    now rewrite Ec.
  - rewrite <- E in *. cbn [filter]. now rewrite IH.
Qed.

Lemma filter_squeeze s :
  filter (fun c => negb (quote =? c)%N) (squeeze_quotes s)
  = filter (fun c => negb (quote =? c)%N) s.
Proof.
  induction s as [|c s IH]; [reflexivity|]. rewrite squeeze_cons.
  destruct ((quote =? c)%N && next_is_quote s) eqn:E.
  - apply andb_true_iff in E. destruct E as [Ec _].
    cbn [filter]. now rewrite Ec.
  - cbn [filter]. now rewrite IH.
Qed.

(** X8.  The English clean-up is idempotent, and it removes quote
    characters only: every other character of the text is kept, in order.
    Its result never starts with a quote. *)
Theorem english_cleanup_idempotent :
  forall text_en,
    normalize_en (normalize_en text_en) = normalize_en text_en
    /\ filter (fun c => negb (quote =? c)%N) (normalize_en text_en)
       = filter (fun c => negb (quote =? c)%N) text_en
    /\ Py.startswith [quote] (normalize_en text_en) = false.
Proof.
  intros s. pose proof (normalize_en_head s) as Hhd.
  split; [|split].
  - rewrite (normalize_en_squeeze (normalize_en s)), startswith_quote, Hhd.
    apply squeeze_fix. rewrite normalize_en_squeeze. apply squeeze_no_adjacent.
  - rewrite normalize_en_squeeze, filter_squeeze.
    destruct (Py.startswith [quote] s); [|reflexivity].
    unfold Py.strip_by. now rewrite filter_rstrip_by, filter_lstrip_by.
  - now rewrite startswith_quote.
Qed.

(** ** The words of the marked text *)

Lemma split_on_nonempty sep s : Py.split_on sep s <> [].
Proof.
  destruct s as [|c s]; simpl; [discriminate|].
  destruct (c =? sep)%N; [discriminate|].
  destruct (Py.split_on sep s); discriminate.
Qed.

(** Splitting at the markers and joining with spaces turns every marker
    into a space. *)
Lemma join_split_on_tilde m :
  Py.join [space] (Py.split_on tilde m) = map untilde_char m.
Proof.
  induction m as [|c m IH]; [reflexivity|]. cbn [Py.split_on map].
  unfold untilde_char at 1. rewrite (N.eqb_sym c tilde).
  destruct (tilde =? c)%N.
  - rewrite join_cons by apply split_on_nonempty. now rewrite IH.
  - rewrite <- IH. pose proof (split_on_nonempty tilde m) as Hne.
    destruct (Py.split_on tilde m) as [|w r]; [congruence|].
    destruct r; reflexivity.
Qed.

Lemma split_app_at_end a b :
  Py.at_word_end b = true -> Py.split (a ++ b) = Py.split a ++ Py.split b.
Proof.
  destruct b as [|c b]; intros H.
  - now rewrite !app_nil_r.
  - simpl in H. rewrite split_app_space by assumption.
    now rewrite (split_cons c b), H.
Qed.

(** The words of a text in which some characters are replaced, white space
    by white space: the words of its words after the replacement. *)
Lemma split_map (f : char -> char) n :
  (forall c, Py.isspace c = true -> Py.isspace (f c) = true) ->
  forall s, length s <= n ->
  Py.split (map f s) = concat (map (fun w => Py.split (map f w)) (Py.split s)).
Proof.
  intros Hf. induction n as [|n IH]; intros s Hlen.
  - destruct s; [reflexivity | simpl in Hlen; lia].
  - destruct s as [|c s]; [reflexivity|]. simpl in Hlen.
    destruct (Py.isspace c) eqn:Hc.
    + cbn [map]. rewrite !split_cons, Hc, (Hf c Hc). apply IH. lia.
    + destruct (first_word (c :: s) Hc) as (w & rest & Heq & Hw & Hrest).
      rewrite Heq, map_app, (split_word w rest Hw Hrest). cbn [map concat].
      assert (Hlen' : length rest <= n).
      { apply (f_equal (@length char)) in Heq. rewrite length_app in Heq.
        destruct Hw as [Hne _]. destruct w; [congruence|]. simpl in *. lia. }
      rewrite split_app_at_end; [now rewrite (IH rest Hlen')|].
      destruct rest as [|d rest]; [reflexivity|]. simpl in *. now apply Hf.
Qed.

Lemma untilde_space c : Py.isspace c = true -> Py.isspace (untilde_char c) = true.
Proof.
  intros H. unfold untilde_char. destruct (N.eqb_spec tilde c) as [<-|]; auto.
Qed.

(** Turning markers into spaces before or after the collapse of white
    space gives the same words. *)
Lemma split_untilde_collapse x :
  Py.split (map untilde_char (collapse_ws x)) = Py.split (map untilde_char x).
Proof.
  rewrite collapse_ws_words, map_join.
  change (map untilde_char [space]) with [space].
  rewrite split_join_any, map_map.
  symmetry. apply (split_map untilde_char _ untilde_space x (le_n _)).
Qed.

Lemma words_in_pieces pieces :
  words_in (map Py.strip (filter (fun s => negb (isnil (Py.strip s))) pieces))
  = list_sum (map word_count pieces).
Proof.
  unfold words_in, list_sum. induction pieces as [|x l IH]; [reflexivity|].
  cbn [filter map fold_right].
  assert (Hx : word_count (Py.strip x) = word_count x)
    by (unfold word_count; now rewrite split_strip).
  destruct (isnil (Py.strip x)) eqn:E; cbn [negb].
  - rewrite IH, <- Hx. destruct (Py.strip x); [reflexivity | discriminate].
  - cbn [map fold_right]. now rewrite IH, Hx.
Qed.

(** The segments have, together, the words of the marked text with every
    marker read as a space. *)
Lemma words_in_segments m :
  words_in (chain_delims_of m) = word_count (map untilde_char m).
Proof.
  unfold chain_delims_of. rewrite words_in_pieces, <- join_split_on_tilde.
  unfold word_count. rewrite split_join_any, length_concat, map_map.
  reflexivity.
Qed.

Lemma map_sub_from (f : char -> char) p r :
  forall s prev k,
    Forall (fun c => f c = c) s ->
    map f (Re.sub_from p r prev k s)
    = Re.sub_from p (fun g => map f (r g)) prev k s.
Proof.
  induction s as [|c s IH]; intros prev k Hs; [reflexivity|].
  inversion Hs as [|? ? Hc Hs']; subst.
  simpl. destruct k as [|k]; [|now apply IH].
  destruct (p prev (c :: s)) as [[[|n] g]|].
  - cbn [map]. rewrite Hc. f_equal. now apply IH.
  - rewrite map_app. f_equal. now apply IH.
  - cbn [map]. rewrite Hc. f_equal. now apply IH.
Qed.

(** Two replacements for one pattern give related texts when the relation
    is kept by a copied character and by a pair of replacements. *)
Lemma sub_from_related (R : str -> str -> Prop) p r1 r2 :
  R [] [] ->
  (forall c x y, R x y -> R (c :: x) (c :: y)) ->
  (forall prev s n g x y,
      p prev s = Some (n, g) -> R x y -> R (r1 g ++ x) (r2 g ++ y)) ->
  forall s prev k,
    R (Re.sub_from p r1 prev k s) (Re.sub_from p r2 prev k s).
Proof.
  intros Hnil Hcons Hrepl. induction s as [|c s IH]; intros prev k; [exact Hnil|].
  simpl. destruct k as [|k]; [|apply IH].
  destruct (p prev (c :: s)) as [[[|n] g]|] eqn:E.
  - apply Hcons, IH.
  - apply (Hrepl _ _ _ _ _ _ E), IH.
  - apply Hcons, IH.
Qed.

(** Every keyword starts with a character that is not white space, and
    holds no marker. *)
Lemma keyword_plain g :
  In g chain_keywords ->
  g <> [] /\ Py.isspace (hd space g) = false
  /\ Forall (fun c => untilde_char c = c) g.
Proof.
  intros Hin.
  assert (Hall : forallb
                   (fun k => negb (isnil k) && negb (Py.isspace (hd space k))
                             && forallb (fun c => (untilde_char c =? c)%N) k)
                   chain_keywords = true) by (vm_compute; reflexivity).
  rewrite forallb_forall in Hall. specialize (Hall g Hin).
  apply andb_true_iff in Hall. destruct Hall as [Hall Hfree].
  apply andb_true_iff in Hall. destruct Hall as [Hne Hhd].
  split; [destruct g; [discriminate | discriminate]|].
  split; [now apply negb_true_iff|].
  apply Forall_forall. intros c Hc. rewrite forallb_forall in Hfree.
  now apply N.eqb_eq, Hfree.
Qed.

Lemma length_cons_word c l : l <> [] -> length (Py.cons_word c l) = length l.
Proof. destruct l; [congruence | reflexivity]. Qed.

Lemma same_count_cons c x y :
  length (Py.split x) = length (Py.split y) ->
  Py.at_word_end x = Py.at_word_end y ->
  length (Py.split (c :: x)) = length (Py.split (c :: y)).
Proof.
  intros Hl He. rewrite !split_cons, <- He.
  destruct (Py.isspace c); [exact Hl|].
  destruct (Py.at_word_end x) eqn:E; [simpl; now rewrite Hl|].
  rewrite !length_cons_word; [exact Hl | |]; apply split_nonempty; congruence.
Qed.

Lemma same_count_app g : forall x y,
  length (Py.split x) = length (Py.split y) ->
  Py.at_word_end x = Py.at_word_end y ->
  length (Py.split (g ++ x)) = length (Py.split (g ++ y))
  /\ Py.at_word_end (g ++ x) = Py.at_word_end (g ++ y).
Proof.
  induction g as [|c g IH]; intros x y Hl He; [now split|].
  destruct (IH x y Hl He) as [IHl IHe]. cbn [app].
  split; [now apply same_count_cons | reflexivity].
Qed.

(** Reducing each matched span to its keyword keeps the number of words:
    a و in front of a keyword is part of the keyword's word. *)
Lemma keywords_only_count is_word n : forall s prev,
  length s <= n ->
  length (Py.split (Re.sub_from (chain_pattern is_word) (fun g => g) prev 0 s))
  = length (Py.split s)
  /\ Py.at_word_end (Re.sub_from (chain_pattern is_word) (fun g => g) prev 0 s)
     = Py.at_word_end s.
Proof.
  induction n as [|n IH]; intros s prev Hlen.
  - destruct s; [now split | simpl in Hlen; lia].
  - destruct s as [|c s]; [now split|]. simpl in Hlen.
    assert (Hcopy :
              length (Py.split (c :: Re.sub_from (chain_pattern is_word)
                                                 (fun g => g) (Some c) 0 s))
              = length (Py.split (c :: s))
              /\ Py.at_word_end (c :: Re.sub_from (chain_pattern is_word)
                                                  (fun g => g) (Some c) 0 s)
                 = Py.at_word_end (c :: s)).
    { destruct (IH s (Some c)) as [IH1 IH2]; [lia|].
      split; [now apply same_count_cons | reflexivity]. }
    rewrite sub_from_cons.
    destruct (chain_pattern is_word prev (c :: s)) as [[[|m] g]|] eqn:E;
      [exact Hcopy | | exact Hcopy].
    destruct (chain_pattern_some _ _ _ _ _ E)
      as (_ & Hin & span & rest & Hspan & Hm & Hg).
    destruct (keyword_plain g Hin) as (Hne & Hhd & _).
    assert (Hrest : skipn m s = rest).
    { change (skipn m s) with (skipn (S m) (c :: s)).
      now rewrite Hspan, Hm, skipn_length_app. }
    rewrite Hrest, Hspan.
    destruct (IH rest (prev_after (Some c) (firstn m s))) as [IH1 IH2].
    { apply (f_equal (@length char)) in Hspan. rewrite length_app in Hspan.
      simpl in Hspan.
      assert (0 < length span)
        by (destruct Hg as [->| ->]; [destruct g; [congruence|] |]; simpl; lia).
      lia. }
    destruct (same_count_app g _ _ IH1 IH2) as [Hl He].
    destruct Hg as [->| ->]; [now split|].
    destruct g as [|x g']; [congruence|]. cbn [hd] in Hhd.
    cbn [app] in *. split.
    + rewrite Hl. rewrite (split_cons waw).
      change (Py.isspace waw) with false. cbn [Py.at_word_end]. rewrite Hhd.
      cbv iota. symmetry. apply length_cons_word.
      apply split_nonempty. exact Hhd.
    + cbn [Py.at_word_end]. rewrite Hhd. reflexivity.
Qed.

(** The marked text, every marker read as a space, has the words of the
    text it was made from, as many as the text has. *)
Lemma marked_text_word_count :
  forall is_word s,
    forallb is_word keyword_letters = true ->
    forallb (fun c => is_word c || Py.isspace c) s = true ->
    forallb (fun c => negb (c =? tilde)%N) s = true ->
    word_count (map untilde_char (mark_keywords is_word s)) = word_count s.
Proof.
  intros is_word s Hletters Hwos Hfree.
  unfold word_count, mark_keywords.
  rewrite split_untilde_collapse. unfold Re.sub.
  rewrite map_sub_from.
  2:{ apply Forall_forall. intros c Hc. rewrite forallb_forall in Hfree.
      specialize (Hfree c Hc). apply negb_true_iff, N.eqb_neq in Hfree.
      unfold untilde_char. destruct (N.eqb_spec tilde c); congruence. }
  assert (Hrel :
            Py.split (Re.sub_from (chain_pattern is_word)
                        (fun g => map untilde_char ([tilde; space] ++ g)) None 0 s)
            = Py.split (Re.sub_from (chain_pattern is_word)
                          (fun g => space :: g) None 0 s)
            /\ Py.at_word_end (Re.sub_from (chain_pattern is_word)
                        (fun g => map untilde_char ([tilde; space] ++ g)) None 0 s)
               = Py.at_word_end (Re.sub_from (chain_pattern is_word)
                          (fun g => space :: g) None 0 s)).
  { apply (sub_from_related
             (fun x y => Py.split x = Py.split y
                         /\ Py.at_word_end x = Py.at_word_end y)).
    - now split.
    - intros c x y [Hs He]. apply (same_words_app [c] x y Hs He).
    - intros prev t n g x y E [Hs He].
      destruct (chain_pattern_some _ _ _ _ _ E) as (_ & Hin & _).
      destruct (keyword_plain g Hin) as (_ & _ & Hplain).
      assert (Hg : map untilde_char g = g).
      { clear -Hplain. induction Hplain as [|c g Hc Hg IH]; [reflexivity|].
        cbn [map]. now rewrite Hc, IH. }
      cbn [app map]. rewrite Hg.
      change (untilde_char tilde) with space.
      change (untilde_char space) with space.
      destruct (same_words_app g x y Hs He) as [Hs' _].
      split; [|reflexivity].
      rewrite !(split_cons space). change (Py.isspace space) with true.
      cbv iota. exact Hs'. }
  destruct Hrel as [Hrel _]. rewrite Hrel.
  destruct (sub_space_same_words is_word Hletters _ s None (le_n _) Hwos) as [H1 _];
    [discriminate|].
  rewrite H1.
  apply (keywords_only_count is_word _ s None (le_n _)).
Qed.

(** X9.  For a text made of word characters and white space with no marker
    in it, the segments of the marked text have, together, exactly as many
    words as the text: marking splits the text between words and neither
    adds nor loses a word. *)
Theorem marking_keeps_word_count :
  forall is_word s,
    forallb is_word keyword_letters = true ->
    forallb (fun c => is_word c || Py.isspace c) s = true ->
    forallb (fun c => negb (c =? tilde)%N) s = true ->
    words_in (chain_delims_of (mark_keywords is_word s)) = word_count s.
Proof.
  intros is_word s Hletters Hwos Hfree.
  rewrite words_in_segments.
  now apply marked_text_word_count.
Qed.

Lemma marking_keeps_word_count_witness :
  forallb latin_arabic_word keyword_letters = true
  /\ forallb (fun c => latin_arabic_word c || Py.isspace c) text_two_keywords = true
  /\ forallb (fun c => negb (c =? tilde)%N) text_two_keywords = true
  /\ words_in (chain_delims_of (mark_keywords latin_arabic_word text_two_keywords))
     = word_count text_two_keywords.
Proof.
  assert (H1 : forallb latin_arabic_word keyword_letters = true)
    by (vm_compute; reflexivity).
  assert (H2 : forallb (fun c => latin_arabic_word c || Py.isspace c)
                       text_two_keywords = true) by (vm_compute; reflexivity).
  assert (H3 : forallb (fun c => negb (c =? tilde)%N) text_two_keywords = true)
    by (vm_compute; reflexivity).
  split; [exact H1|]. split; [exact H2|]. split; [exact H3|].
  exact (marking_keeps_word_count latin_arabic_word text_two_keywords H1 H2 H3).
Defined.

(** ** Where the chain ends *)

Lemma words_in_app l1 l2 : words_in (l1 ++ l2) = words_in l1 + words_in l2.
Proof. unfold words_in. now rewrite map_app, list_sum_app. Qed.

Lemma words_in_join l : word_count (Py.join [space] l) = words_in l.
Proof.
  unfold word_count, words_in.
  now rewrite split_join_any, length_concat, map_map.
Qed.

Lemma words_in_pos l :
  Forall (fun d => 0 < word_count d) l -> l <> [] -> 0 < words_in l.
Proof.
  intros H Hne. destruct l as [|d l]; [congruence|].
  inversion H; subst. unfold words_in. simpl. lia.
Qed.

Lemma isnil_length {A : Type} (l : list A) : isnil l = (length l =? 0).
Proof. now destruct l. Qed.

(** X10.  When the normalised text is made of word characters and white
    space and holds neither a marker nor a diacritic, the split cuts the
    text at a segment boundary: the chain has exactly the words of the
    segments before the one at which the body candidate starts, and the
    body the words of the segments from that one on. *)
Theorem chain_ends_at_segment_boundary :
  forall is_word text,
    forallb is_word keyword_letters = true ->
    forallb (fun c => is_word c || Py.isspace c) (normalize text) = true ->
    forallb (fun c => negb (c =? tilde)%N) (normalize text) = true ->
    forallb (fun c => negb (arabic_diacritics c)) (normalize text) = true ->
    exists chain body,
      segment is_word text = Py.Ok (chain, body)
      /\ word_count chain
         = words_in
             (firstn (boundary_index
                        (chain_delims_of (text_marked_of is_word (normalize text))))
                     (chain_delims_of (text_marked_of is_word (normalize text))))
      /\ word_count body
         = words_in
             (skipn (boundary_index
                       (chain_delims_of (text_marked_of is_word (normalize text))))
                    (chain_delims_of (text_marked_of is_word (normalize text)))).
Proof.
  intros is_word text Hletters Hwos Hfree Hdia.
  pose proof (normalize_words text) as Hn.
  set (n := normalize text) in *.
  assert (Hrd : remove_diacritics n = n).
  { unfold remove_diacritics. rewrite sub_char_class_delete.
    apply filter_all. now apply Forall_forall, forallb_forall. }
  assert (Htm : text_marked_of is_word n = mark_keywords is_word n)
    by (unfold text_marked_of; now rewrite Hrd).
  pose proof (marked_text_word_count is_word n Hletters Hwos Hfree) as Htotal.
  rewrite <- words_in_segments, <- Htm in Htotal.
  pose proof (chain_delims_shape (text_marked_of is_word n)) as Hshape.
  pose proof (body_marked_suffix (text_marked_of is_word n)) as Hbm.
  set (segs := chain_delims_of (text_marked_of is_word n)) in *.
  set (k := boundary_index segs) in *.
  set (bm := Py.join [space] (skipn k segs)) in *.
  assert (HB : word_count bm = words_in (skipn k segs)) by apply words_in_join.
  assert (Hsum : words_in segs = words_in (firstn k segs) + words_in (skipn k segs))
    by (now rewrite <- words_in_app, firstn_skipn).
  assert (Hpos : segs <> [] -> 0 < words_in (skipn k segs)).
  { intros Hne. apply words_in_pos.
    - apply Forall_skipn. eapply Forall_impl; [|exact Hshape].
      intros d [Ht _]. now apply trimmed_word_count.
    - apply skipn_nonempty. now apply boundary_index_lt. }
  assert (Hempty : segs = [] -> words_in (firstn k segs) = 0).
  { intros ->. now rewrite firstn_nil. }
  assert (Hd : diff_of n bm = words_in (firstn k segs)).
  { unfold diff_of. rewrite !isnil_length.
    fold (word_count n). fold (word_count bm). rewrite HB, <- Htotal, Hsum.
    destruct segs as [|d0 l0] eqn:Esegs.
    - rewrite Hempty by reflexivity.
      now rewrite skipn_nil.
    - specialize (Hpos ltac:(discriminate)).
      set (A := words_in (firstn k (d0 :: l0))) in *.
      set (B := words_in (skipn k (d0 :: l0))) in *.
      destruct (Nat.eqb_spec (A + B) 0); [lia|].
      destruct (Nat.eqb_spec B 0); [lia|]. cbn [orb].
      destruct (Nat.leb_spec (A + B) B); lia. }
  exists (Py.join [space] (firstn (diff_of n bm) (Py.split n))),
         (Py.join [space] (skipn (diff_of n bm) (Py.split n))).
  split.
  - unfold segment. fold n. rewrite Hbm. cbn [Py.bind].
    now rewrite (apply_split_diff n bm Hn).
  - unfold word_count at 1 2.
    rewrite !split_join
      by (first [apply Forall_firstn | apply Forall_skipn]; apply split_tokens).
    rewrite length_firstn, length_skipn, Hd.
    fold (word_count n). rewrite <- Htotal, Hsum. lia.
Qed.

Lemma chain_ends_at_segment_boundary_witness :
  forallb latin_arabic_word keyword_letters = true
  /\ forallb (fun c => latin_arabic_word c || Py.isspace c) (normalize text_prophet)
     = true
  /\ forallb (fun c => negb (c =? tilde)%N) (normalize text_prophet) = true
  /\ forallb (fun c => negb (arabic_diacritics c)) (normalize text_prophet) = true
  /\ boundary_index
       (chain_delims_of (text_marked_of latin_arabic_word (normalize text_prophet)))
     = 1
  /\ exists chain body,
       segment latin_arabic_word text_prophet = Py.Ok (chain, body)
       /\ word_count chain
          = words_in
              (firstn (boundary_index
                         (chain_delims_of
                            (text_marked_of latin_arabic_word (normalize text_prophet))))
                      (chain_delims_of
                         (text_marked_of latin_arabic_word (normalize text_prophet)))).
Proof.
  assert (H1 : forallb latin_arabic_word keyword_letters = true)
    by (vm_compute; reflexivity).
  assert (H2 : forallb (fun c => latin_arabic_word c || Py.isspace c)
                       (normalize text_prophet) = true) by (vm_compute; reflexivity).
  assert (H3 : forallb (fun c => negb (c =? tilde)%N) (normalize text_prophet) = true)
    by (vm_compute; reflexivity).
  assert (H4 : forallb (fun c => negb (arabic_diacritics c)) (normalize text_prophet)
               = true) by (vm_compute; reflexivity).
  split; [exact H1|]. split; [exact H2|]. split; [exact H3|]. split; [exact H4|].
  split; [vm_compute; reflexivity|].
  destruct (chain_ends_at_segment_boundary latin_arabic_word text_prophet H1 H2 H3 H4)
    as (chain & body & Hseg & Hc & _).
  exists chain, body. split; assumption.
Defined.

(** ** Texts without a keyword *)

Lemma split_on_none sep s :
  Forall (fun c => c <> sep) s -> Py.split_on sep s = [s].
Proof.
  induction 1 as [|c s Hc Hs IH]; [reflexivity|]. simpl.
  destruct (N.eqb_spec c sep); [congruence|]. now rewrite IH.
Qed.

(** X11.  When the chain pattern matches nowhere in the diacritic-stripped
    normalised text, the text holds no marker, and stripping the diacritics
    does not change its number of words, the split finds no chain: the
    chain is empty and the body is the whole normalised text, whatever the
    heuristics say about it. *)
Theorem text_without_keyword_is_body :
  forall is_word text,
    Re.search (chain_pattern is_word) (remove_diacritics (normalize text)) = false ->
    forallb (fun c => negb (c =? tilde)%N) (normalize text) = true ->
    word_count (remove_diacritics (normalize text)) = word_count (normalize text) ->
    segment is_word text = Py.Ok ([], normalize text).
Proof.
  intros is_word text Hsearch Hfree Hwc.
  set (n := normalize text) in *.
  set (s := remove_diacritics n) in *.
  assert (Hm : text_marked_of is_word n = collapse_ws s).
  { unfold text_marked_of, mark_keywords. fold s. unfold Re.sub.
    now rewrite sub_from_no_match. }
  assert (Hsfree : Forall (fun c => c <> tilde) s).
  { unfold s, remove_diacritics. rewrite sub_char_class_delete.
    apply Forall_forall. intros c Hc. apply filter_In in Hc. destruct Hc as [Hc _].
    rewrite forallb_forall in Hfree. specialize (Hfree c Hc).
    now apply N.eqb_neq, negb_true_iff. }
  assert (Hmfree : Forall (fun c => c <> tilde) (collapse_ws s)).
  { unfold collapse_ws, Re.sub. apply Forall_strip_by.
    apply Forall_sub_from; [intros; repeat constructor; discriminate | assumption]. }
  assert (Hmstrip : Py.strip (collapse_ws s) = collapse_ws s).
  { rewrite collapse_ws_words. apply strip_join_tokens, split_tokens. }
  assert (Hmwords : Py.split (collapse_ws s) = Py.split s).
  { rewrite collapse_ws_words. apply split_join, split_tokens. }
  unfold segment. fold n. rewrite body_marked_suffix, Hm. cbn [Py.bind].
  assert (Hsegs : chain_delims_of (collapse_ws s)
                  = if isnil (collapse_ws s) then [] else [collapse_ws s]).
  { unfold chain_delims_of. rewrite (split_on_none _ _ Hmfree).
    cbn [filter]. rewrite Hmstrip.
    destruct (isnil (collapse_ws s)); cbn [negb map];
      [reflexivity | now rewrite Hmstrip]. }
  rewrite Hsegs. f_equal.
  destruct (isnil (collapse_ws s)) eqn:Enil.
  - change (Py.join [space] (skipn (boundary_index []) [])) with (@nil char).
    unfold apply_split. cbn [Py.split isnil]. now rewrite orb_true_r.
  - assert (Hk : boundary_index [collapse_ws s] = 0).
    { pose proof (boundary_index_lt [collapse_ws s] ltac:(discriminate)) as H.
      simpl in H. lia. }
    rewrite Hk. cbn [skipn Py.join].
    unfold apply_split. rewrite Hmwords. unfold word_count in Hwc.
    replace (length (Py.split n) <=? length (Py.split s)) with true
      by (symmetry; apply Nat.leb_le; lia).
    now rewrite orb_true_r.
Qed.

Lemma text_without_keyword_is_body_witness :
  Re.search (chain_pattern latin_arabic_word)
            (remove_diacritics (normalize text_vowelled)) = false
  /\ forallb (fun c => negb (c =? tilde)%N) (normalize text_vowelled) = true
  /\ word_count (remove_diacritics (normalize text_vowelled))
     = word_count (normalize text_vowelled)
  /\ remove_diacritics (normalize text_vowelled) = text_zayd_kadha
  /\ segment latin_arabic_word text_vowelled = Py.Ok ([], normalize text_vowelled).
Proof.
  assert (H1 : Re.search (chain_pattern latin_arabic_word)
                         (remove_diacritics (normalize text_vowelled)) = false)
    by (vm_compute; reflexivity).
  assert (H2 : forallb (fun c => negb (c =? tilde)%N) (normalize text_vowelled) = true)
    by (vm_compute; reflexivity).
  assert (H3 : word_count (remove_diacritics (normalize text_vowelled))
               = word_count (normalize text_vowelled)) by (vm_compute; reflexivity).
  split; [exact H1|]. split; [exact H2|]. split; [exact H3|].
  split; [vm_compute; reflexivity|].
  exact (text_without_keyword_is_body latin_arabic_word text_vowelled H1 H2 H3).
Defined.

(** ** Diacritics and words *)

(** X12.  Stripping the diacritics works inside the words: the words of
    the stripped text are the words of the text, each without its
    diacritics, those left empty dropped.  So stripping never joins two
    words, never cuts one, and never adds a word. *)
Theorem remove_diacritics_words :
  forall text,
    Py.split (remove_diacritics text)
    = filter (fun w => negb (isnil w)) (map remove_diacritics (Py.split text))
    /\ word_count (remove_diacritics text) <= word_count text.
Proof.
  intros text.
  assert (Hkeep : forall c, Py.isspace c = true -> negb (arabic_diacritics c) = true).
  { intros c Hc. apply negb_true_iff.
    destruct (arabic_diacritics c) eqn:E; [|reflexivity]. exfalso.
    unfold arabic_diacritics, Py.isspace, Py.in_range in *.
    repeat rewrite ?orb_true_iff, ?andb_true_iff, ?N.leb_le, ?N.eqb_eq in *.
    lia. }
  assert (Hsplit : Py.split (remove_diacritics text)
                   = filter (fun w => negb (isnil w))
                            (map remove_diacritics (Py.split text))).
  { unfold remove_diacritics at 1. rewrite sub_char_class_delete.
    rewrite (split_filter _ Hkeep _ text (le_n _)). f_equal.
    apply map_ext. intros w. unfold remove_diacritics.
    now rewrite sub_char_class_delete. }
  split; [exact Hsplit|].
  unfold word_count. rewrite Hsplit.
  rewrite <- (length_map remove_diacritics (Py.split text)).
  apply filter_length_le.
Qed.

(** ** The choice of the keyword *)

Lemma startswith_skipn_hd a : forall b s,
  Py.startswith a s = true -> Py.startswith b s = true ->
  length a < length b ->
  hd_error (skipn (length a) s) = Some (nth (length a) b space).
Proof.
  induction a as [|x a IH]; intros b s Ha Hb Hlen.
  - destruct b as [|y b]; [simpl in Hlen; lia|].
    destruct s as [|c s]; [discriminate|]. simpl in *.
    apply andb_true_iff in Hb. destruct Hb as [Hy _].
    apply N.eqb_eq in Hy. now subst.
  - destruct b as [|y b]; [simpl in Hlen; lia|].
    destruct s as [|c s]; [discriminate|]. simpl in *.
    apply andb_true_iff in Ha. destruct Ha as [_ Ha].
    apply andb_true_iff in Hb. destruct Hb as [_ Hb].
    apply (IH b s Ha Hb). lia.
Qed.

Section KeywordChoice.
Variable is_word : char -> bool.
Hypothesis letters_are_word : forallb is_word keyword_letters = true.

(** Where one keyword is the beginning of a longer one, the longer one goes
    on with a letter, so the shorter one does not end on a word boundary. *)
Lemma longer_keyword_blocks k1 k2 s :
  In k1 chain_keywords -> In k2 chain_keywords ->
  Py.startswith k1 s = true -> Py.startswith k2 s = true ->
  length k1 < length k2 ->
  Re.word_boundary is_word (Some (last k1 space))
                   (hd_error (skipn (length k1) s)) = false.
Proof.
  intros H1 H2 Hs1 Hs2 Hlen.
  rewrite (startswith_skipn_hd k1 k2 s Hs1 Hs2 Hlen).
  destruct (keyword_shape is_word letters_are_word k1 H1) as (_ & _ & Hlast & _).
  assert (Hpre : Py.startswith k1 k2 = true)
    by (apply (startswith_comparable k1 k2 s Hs1 Hs2); lia).
  assert (Hall : forallb
                   (fun a => forallb
                      (fun b => negb (Py.startswith a b && (length a <? length b))
                                || existsb (N.eqb (nth (length a) b space))
                                           keyword_letters)
                      chain_keywords)
                   chain_keywords = true) by (vm_compute; reflexivity).
  rewrite forallb_forall in Hall. specialize (Hall k1 H1).
  rewrite forallb_forall in Hall. specialize (Hall k2 H2).
  rewrite Hpre in Hall. apply Nat.ltb_lt in Hlen. rewrite Hlen in Hall.
  change (negb (true && true)) with false in Hall. rewrite orb_false_l in Hall.
  apply existsb_exists in Hall. destruct Hall as (x & Hx & Hex).
  apply N.eqb_eq in Hex. subst x.
  unfold Re.word_boundary. cbn [Re.is_word_opt].
  rewrite Hlast, (keyword_letter_word is_word letters_are_word _ Hx). reflexivity.
Qed.

Lemma startswith_same_length a : forall b s,
  Py.startswith a s = true -> Py.startswith b s = true ->
  length a = length b -> a = b.
Proof.
  induction a as [|x a IH]; intros b s Ha Hb Hlen.
  - destruct b; [reflexivity | discriminate].
  - destruct b as [|y b]; [discriminate|].
    destruct s as [|c s]; [discriminate|]. simpl in *.
    apply andb_true_iff in Ha. destruct Ha as [Hx Ha].
    apply andb_true_iff in Hb. destruct Hb as [Hy Hb].
    apply N.eqb_eq in Hx, Hy. subst. f_equal. apply (IH b s); auto.
Qed.

Lemma keyword_choice s k :
  In k chain_keywords ->
  Py.startswith k s = true ->
  Re.word_boundary is_word (Some (last k space))
                   (hd_error (skipn (length k) s)) = true ->
  keyword_at is_word s = Some k.
Proof.
  intros Hin Hs Hb. unfold keyword_at.
  destruct (find _ chain_keywords) as [k'|] eqn:E.
  - apply find_some in E. destruct E as [Hin' E].
    apply andb_true_iff in E. destruct E as [Hs' Hb'].
    f_equal.
    destruct (Nat.lt_trichotomy (length k') (length k)) as [Hlt|[Heq|Hgt]].
    + rewrite (longer_keyword_blocks k' k s Hin' Hin Hs' Hs Hlt) in Hb'.
      discriminate.
    + apply (startswith_same_length k' k s Hs' Hs Heq).
    + rewrite (longer_keyword_blocks k k' s Hin Hin' Hs Hs' Hgt) in Hb.
      discriminate.
  - pose proof (find_none _ _ E k Hin) as H. cbv beta in H.
    rewrite Hs, Hb in H. discriminate.
Qed.

End KeywordChoice.

(** X13.  The order of the keywords in the pattern does not matter: at any
    position at most one keyword both starts there and ends on a word
    boundary, so a keyword that does is the one the pattern takes as its
    group 1, also when a shorter keyword that is its beginning stands
    earlier in the list (حدثنا before حدثناه). *)
Theorem keyword_at_unique :
  forall is_word s k,
    forallb is_word keyword_letters = true ->
    In k chain_keywords ->
    Py.startswith k s = true ->
    Re.word_boundary is_word (Some (last k space))
                     (hd_error (skipn (length k) s)) = true ->
    keyword_at is_word s = Some k
    /\ forall k', In k' chain_keywords ->
                  Py.startswith k' s = true ->
                  Re.word_boundary is_word (Some (last k' space))
                                   (hd_error (skipn (length k') s)) = true ->
                  k' = k.
Proof.
  intros is_word s k Hletters Hin Hs Hb.
  pose proof (keyword_choice is_word Hletters s k Hin Hs Hb) as Hk.
  split; [exact Hk|].
  intros k' Hin' Hs' Hb'.
  pose proof (keyword_choice is_word Hletters s k' Hin' Hs' Hb') as Hk'.
  congruence.
Qed.

Lemma keyword_at_unique_witness :
  forallb latin_arabic_word keyword_letters = true
  /\ In haddathanahu chain_keywords
  /\ Py.startswith haddathanahu text_haddathanahu = true
  /\ keyword_at latin_arabic_word text_haddathanahu = Some haddathanahu.
Proof.
  assert (H1 : forallb latin_arabic_word keyword_letters = true)
    by (vm_compute; reflexivity).
  assert (H2 : In haddathanahu chain_keywords)
    by (right; right; left; reflexivity).
  assert (H3 : Py.startswith haddathanahu text_haddathanahu = true)
    by (vm_compute; reflexivity).
  assert (H4 : Re.word_boundary latin_arabic_word (Some (last haddathanahu space))
                 (hd_error (skipn (length haddathanahu) text_haddathanahu)) = true)
    by (vm_compute; reflexivity).
  split; [exact H1|]. split; [exact H2|]. split; [exact H3|].
  exact (proj1 (keyword_at_unique latin_arabic_word text_haddathanahu haddathanahu
                  H1 H2 H3 H4)).
Defined.
